(** * Modbus adapter blocks: TCP ([modbus_block.py]) and RTU ([modbus_rtu_block.py])

    A shallow embedding of the two blocks' signal pipelines.  Python
    methods become functions in a state-and-exception monad; the transport
    library (pymodbus3 / minimalmodbus) is an oracle that answers a call
    from the history of transport operations performed so far. *)

From stdpp Require Import base gmap strings list relations.

Open Scope Z_scope.
Set Warnings "-register-all".

(** ** Python values, truthiness and exceptions *)

Inductive pyval : Type :=
| PyNone
| PyBool (b : bool)
| PyInt (z : Z)
| PyStr (s : string)
| PyList (l : list pyval).

(** [bool(v)], as used by [if v:] and [if not v:]. *)
Definition truthy (v : pyval) : bool :=
  match v with
  | PyNone => false
  | PyBool b => b
  | PyInt z => negb (z =? 0)
  | PyStr s => negb (String.eqb s "")
  | PyList l => match l with [] => false | _ :: _ => true end
  end.

(** An [int] or [None] stored into a dict. *)
Definition py_of_option_int (o : option Z) : pyval :=
  match o with Some z => PyInt z | None => PyNone end.

Inductive exn : Type :=
| ModbusIOException
| IOError
| TypeError (msg : string)
| Exception (msg : string).

(** The exceptions the spec calls transport I/O errors. *)
Definition is_io_error (e : exn) : bool :=
  match e with
  | ModbusIOException | IOError => true
  | _ => false
  end.

Inductive log_level : Type := Debug | Warning | Error.

(** ** State and exception monad *)

Inductive result (A : Type) : Type :=
| Ret (a : A)
| Raise (e : exn).
Arguments Ret {A} a.
Arguments Raise {A} e.

Definition M (S A : Type) : Type := S -> result A * S.

Definition ret {S A} (a : A) : M S A := fun w => (Ret a, w).

Definition raise {S A} (e : exn) : M S A := fun w => (Raise e, w).

Definition bind {S A B} (m : M S A) (k : A -> M S B) : M S B :=
  fun w =>
    match m w with
    | (Ret a, w') => k a w'
    | (Raise e, w') => (Raise e, w')
    end.

(** [try: m  except e: h e] *)
Definition try_except {S A} (m : M S A) (h : exn -> M S A) : M S A :=
  fun w =>
    match m w with
    | (Ret a, w') => (Ret a, w')
    | (Raise e, w') => h e w'
    end.

Notation "'let!' x ':=' m 'in' k" := (bind m (fun x => k))
  (at level 10, x name, m at level 100, k at level 200,
   format "'[v' 'let!'  x  ':='  m  'in' '/' k ']'").

(** Python's [x in [a, b, ...]]. *)
Definition py_in `{EqDecision A} (x : A) (l : list A) : bool :=
  bool_decide (x ∈ l).

(** * The TCP block *)

Module TCP.

Inductive FunctionName : Type :=
| read_coils
| read_discrete_inputs
| read_holding_registers
| read_input_registers
| write_single_coil
| write_multiple_coils
| write_single_holding_register
| write_multiple_holding_registers.

(** [FunctionName.<member>.value] *)
Definition FunctionName_value (f : FunctionName) : string :=
  match f with
  | read_coils => "read_coils"
  | read_discrete_inputs => "read_discrete_inputs"
  | read_holding_registers => "read_holding_registers"
  | read_input_registers => "read_input_registers"
  | write_single_coil => "write_coil"
  | write_multiple_coils => "write_coils"
  | write_single_holding_register => "write_register"
  | write_multiple_holding_registers => "write_registers"
  end.

(** The functions for which [_prepare_params] evaluates the value
    expression. *)
Definition is_write (f : FunctionName) : bool :=
  match f with
  | write_single_coil | write_multiple_coils
  | write_single_holding_register | write_multiple_holding_registers => true
  | _ => false
  end.

(** What a client method returns: an object with its [__dict__] and its
    truth value. *)
Record response : Type := {
  resp_dict : gmap string pyval;
  resp_truthy : bool
}.

Inductive outcome : Type :=
| Returns (r : response)
| Raises (e : exn).

(** Operations on the transport, in the order they happen. *)
Inductive io_event : Type :=
| Call (f : string) (params : gmap string pyval)
| Connect.

(** An output signal: [Signal(result.__dict__)] with its [params]
    attribute set. *)
Record Signal : Type := {
  sig_attrs : gmap string pyval;
  sig_params : gmap string pyval
}.

Record world : Type := {
  io : list io_event;
  logs : list (log_level * string);
  notified : list (list Signal)
}.

(** The block as the first batch finds it; the histories start empty
    here. *)
Definition init : world := {| io := []; logs := []; notified := [] |}.

Definition log (lvl : log_level) (msg : string) : M world unit :=
  fun w => (Ret tt, {| io := io w; logs := logs w ++ [(lvl, msg)];
                       notified := notified w |}).

Definition emit (ev : io_event) (w : world) : world :=
  {| io := io w ++ [ev]; logs := logs w; notified := notified w |}.

(** [self.notify_signals(output)] *)
Definition notify_signals (output : list Signal) : M world unit :=
  fun w => (Ret tt, {| io := io w; logs := logs w;
                       notified := notified w ++ [output] |}).

Section Block.

(** Incoming signals and the block's configuration.  An expression
    property evaluates to a value on a signal, or raises ([None]). *)
Variable signal : Type.
Variable function_name : FunctionName.
Variable address : signal -> option pyval.
Variable value : signal -> option pyval.

(** Python's builtin [int(v)]; [None] when it raises. *)
Variable py_int : pyval -> option Z.

(** The device behind the client: what a call returns or raises, given
    everything done on the transport before it. *)
Variable device : list io_event -> string -> gmap string pyval -> outcome.

(** [self._client = ModbusTcpClient(self.host)]: building the client
    opens no socket and is taken not to raise. *)
Definition _connect : M world unit :=
  fun w => (Ret tt, emit Connect w).

(** [getattr(self._client, modbus_function)( **params )] *)
Definition client_call (modbus_function : string)
    (params : gmap string pyval) : M world response :=
  fun w =>
    let w' := emit (Call modbus_function params) w in
    match device (io w) modbus_function params with
    | Returns r => (Ret r, w')
    | Raises e => (Raise e, w')
    end.

(** The body of [_execute], with the recursive call left open. *)
Definition _execute_body
    (self_execute : string -> gmap string pyval -> bool ->
                    M world (option Signal))
    (modbus_function : string) (params : gmap string pyval)
    (retry : bool) : M world (option Signal) :=
  try_except
    (let! result := client_call modbus_function params in
     if resp_truthy result then
       ret (Some {| sig_attrs := resp_dict result; sig_params := params |})
     else ret None)
    (fun e =>
       match e with
       | ModbusIOException =>
           if negb retry then
             let! _ := log Error "Failed to execute Modbus function. Reconnecting and retyring one time." in
             let! _ := _connect in
             let! _ := self_execute modbus_function params true in
             ret None
           else
             let! _ := log Error "Failed to execute Modbus function. Return failed." in
             ret None
       | _ =>
           let! _ := log Error "Failed to execute Modbus function" in
           ret None
       end).

(** [_execute] calls itself only with [retry=True], and that call never
    recurses: two unfoldings of the body are the whole function. *)
Definition _execute : string -> gmap string pyval -> bool ->
                      M world (option Signal) :=
  _execute_body (_execute_body (fun _ _ _ => ret None)).

(** [int(self.address(signal))] under [try]; a failure of either step is
    logged and [None] is returned. *)
Definition _address (s : signal) : M world (option Z) :=
  match address s with
  | Some v =>
      match py_int v with
      | Some a => ret (Some a)
      | None =>
          let! _ := log Warning "Address needs to evaluate to an integer" in
          ret None
      end
  | None =>
      let! _ := log Warning "Address needs to evaluate to an integer" in
      ret None
  end.

Definition _prepare_params (modbus_function : string) (s : signal)
    : M world (option (gmap string pyval)) :=
  if py_in modbus_function ["write_coil"; "write_register"] then
    match value s with
    | Some v => ret (Some {["value" := v]})
    | None =>
        let! _ := log Warning "Failed to prepare function params" in
        ret None
    end
  else if py_in modbus_function ["write_coils"; "write_registers"] then
    match value s with
    | Some v => ret (Some {["values" := v]})
    | None =>
        let! _ := log Warning "Failed to prepare function params" in
        ret None
    end
  else ret (Some ∅).

(** [params[key] = v], where [params] may be [None]. *)
Definition setitem (params : option (gmap string pyval)) (key : string)
    (v : pyval) : M world (option (gmap string pyval)) :=
  match params with
  | Some d => ret (Some (<[key := v]> d))
  | None => raise (TypeError "'NoneType' object does not support item assignment")
  end.

(** One iteration of the [for] loop of [process_signals]; the result is
    the [output] list after the iteration.  [modbus_function] is the value
    of an enum member, never [None]; the [continue] is the last branch. *)
Definition loop_body (s : signal) (output : list Signal)
    : M world (list Signal) :=
  let modbus_function := FunctionName_value function_name in
  let! address := _address s in
  let! params := _prepare_params modbus_function s in
  let! params := setitem params "address" (py_of_option_int address) in
  match address, params with
  | Some _, Some params =>
      let! output_signal := _execute modbus_function params false in
      match output_signal with
      | Some sg => ret (output ++ [sg])
      | None => ret output
      end
  | _, _ => ret output
  end.

Fixpoint for_signals (signals : list signal) (output : list Signal)
    : M world (list Signal) :=
  match signals with
  | [] => ret output
  | s :: rest =>
      let! output := loop_body s output in
      for_signals rest output
  end.

Definition process_signals (signals : list signal) : M world unit :=
  let! output := for_signals signals [] in
  match output with
  | [] => ret tt
  | _ :: _ => notify_signals output
  end.

End Block.

End TCP.

(** * The RTU block *)

Module RTU.

Inductive FunctionName : Type :=
| read_coils
| read_discrete_inputs
| read_holding_registers
| read_input_registers
| write_single_coil
| write_multiple_coils
| write_single_holding_register
| write_multiple_holding_registers.

(** [FunctionName.<member>.value]: the Modbus function code. *)
Definition FunctionName_value (f : FunctionName) : Z :=
  match f with
  | read_coils => 1
  | read_discrete_inputs => 2
  | read_holding_registers => 3
  | read_input_registers => 4
  | write_single_coil => 5
  | write_multiple_coils => 15
  | write_single_holding_register => 6
  | write_multiple_holding_registers => 16
  end.

(** The functions for which [_prepare_params] evaluates the value
    expression. *)
Definition is_write (f : FunctionName) : bool :=
  match f with
  | write_single_coil | write_multiple_coils
  | write_single_holding_register | write_multiple_holding_registers => true
  | _ => false
  end.

(** The dict literal of [_function_name_from_code], looked up with
    [.get(code)]. *)
Definition _function_name_from_code (code : Z) : option string :=
  ({[ 1 := "read_bit"; 2 := "read_bit"; 5 := "write_bit"; 15 := "write_bit";
      3 := "read_registers"; 4 := "read_registers"; 6 := "write_register";
      16 := "write_registers" ]} : gmap Z string) !! code.

Inductive outcome : Type :=
| Returns (r : pyval)
| Raises (e : exn).

Inductive io_event : Type :=
| Call (f : string) (params : gmap string pyval)
| Connect
| SerialClose.

(** [Signal({'values': response, 'params': params})] *)
Record Signal : Type := {
  sig_values : pyval;
  sig_params : gmap string pyval
}.

Record world : Type := {
  io : list io_event;
  logs : list (log_level * string);
  notified : list (list Signal);
  _num_locks : Z
}.

(** The block as the first batch finds it: [_num_locks] is 0, as
    [__init__] sets it; the histories start empty here. *)
Definition init : world :=
  {| io := []; logs := []; notified := []; _num_locks := 0 |}.

(** [self._max_locks = 5] *)
Definition _max_locks : Z := 5.

Definition log (lvl : log_level) (msg : string) : M world unit :=
  fun w => (Ret tt, {| io := io w; logs := logs w ++ [(lvl, msg)];
                       notified := notified w; _num_locks := _num_locks w |}).

Definition emit (ev : io_event) (w : world) : world :=
  {| io := io w ++ [ev]; logs := logs w; notified := notified w;
     _num_locks := _num_locks w |}.

Definition notify_signals (output : list Signal) : M world unit :=
  fun w => (Ret tt, {| io := io w; logs := logs w;
                       notified := notified w ++ [output];
                       _num_locks := _num_locks w |}).

Definition get_num_locks : M world Z := fun w => (Ret (_num_locks w), w).

(** [self._num_locks += d] *)
Definition add_num_locks (d : Z) : M world unit :=
  fun w => (Ret tt, {| io := io w; logs := logs w; notified := notified w;
                       _num_locks := _num_locks w + d |}).

(** A computation that leaves the waiting count and the emitted batches as
    they are and only adds to the transport history. *)
Definition preserves {A} (m : M world A) : Prop :=
  forall w r w',
    m w = (r, w') ->
    _num_locks w' = _num_locks w /\
    notified w' = notified w /\
    io w `prefix_of` io w'.

Section Block.

Variable signal : Type.
Variable function_name : FunctionName.
Variable address : signal -> option pyval.
Variable value : signal -> option pyval.
Variable count : Z.

(** Python's builtin [int(v)]; [None] when it raises. *)
Variable py_int : pyval -> option Z.

(** The instrument on the serial line: what a call returns or raises,
    and whether closing the serial port raises, given the transport
    history. *)
Variable device : list io_event -> string -> gmap string pyval -> outcome.
Variable serial_close : list io_event -> option exn.

(** [self._modbus_function], as [configure] sets it. *)
Definition _modbus_function : option string :=
  _function_name_from_code (FunctionName_value function_name).

(** [self._client = minimalmodbus.Instrument(...)].  Building the
    instrument opens the serial port; the model covers the runs in which
    it opens, and a failure to open is outside it.  The second entry
    stands for the client's repr, which the code logs. *)
Definition _connect : M world unit :=
  let! _ := log Debug "Connecting to modbus" in
  let! _ := (fun w => (Ret tt, emit Connect w)) in
  let! _ := log Debug "self._client" in
  log Debug "Succesfully connected to modbus".

(** [getattr(self._client, self._modbus_function)( **params )] *)
Definition client_call (params : gmap string pyval) : M world pyval :=
  match _modbus_function with
  | None => raise (TypeError "getattr(): attribute name must be string")
  | Some f =>
      fun w =>
        let w' := emit (Call f params) w in
        match device (io w) f params with
        | Returns r => (Ret r, w')
        | Raises e => (Raise e, w')
        end
  end.

Definition _process_response (response : pyval)
    (params : gmap string pyval) : option Signal :=
  if negb (truthy response) then None
  else Some {| sig_values := response; sig_params := params |}.

Definition _execute (params : gmap string pyval) : M world (option Signal) :=
  let! _ := log Debug "Executing Modbus function '{}' with params: {}, is_retry: {}" in
  let! response := client_call params in
  let! _ := log Debug "Modbus function returned: {}" in
  ret (_process_response response params).

(** [int(self.address(signal))] under [try]; a failure of either step is
    logged and [None] is returned. *)
Definition _address (s : signal) : M world (option Z) :=
  match address s with
  | Some v =>
      match py_int v with
      | Some a => ret (Some a)
      | None =>
          let! _ := log Warning "Address needs to evaluate to an integer" in
          ret None
      end
  | None =>
      let! _ := log Warning "Address needs to evaluate to an integer" in
      ret None
  end.

Definition _prepare_params (s : signal) : M world (gmap string pyval) :=
  let code := FunctionName_value function_name in
  let params : gmap string pyval := ∅ in
  let params := <["functioncode" := PyInt code]> params in
  let! a := _address s in
  let params := <["registeraddress" := py_of_option_int a]> params in
  if py_in code [3; 4] then
    ret (<["numberOfRegisters" := PyInt count]> params)
  else if py_in code [5; 6; 15; 16] then
    match value s with
    | Some v => ret (<["value" := v]> params)
    | None => raise (Exception "Invalid configuration of `value` property")
    end
  else ret params.

Definition _close : M world unit :=
  fun w =>
    match serial_close (io w) with
    | None => (Ret tt, emit SerialClose w)
    | Some _ =>
        log Warning "Failed to manually close serial connection"
            (emit SerialClose w)
    end.

Definition before_retry : M world unit :=
  let! _ := _close in
  _connect.

(** Modelled from the spec: [execute_with_retry] of the host framework's
    Retry mixin, which this repository only calls.  Following the
    executor state machine of the spec: a transport I/O error on the
    first attempt is logged, [before_retry] reconnects, and the call is
    re-attempted exactly once; an error on the retried attempt, or any
    other error, is logged and yields no result. *)
Definition execute_with_retry
    (execute_method : gmap string pyval -> M world (option Signal))
    (params : gmap string pyval) : M world (option Signal) :=
  try_except (execute_method params)
    (fun e =>
       if is_io_error e then
         let! _ := log Error "Retrying after transport I/O error" in
         let! _ := before_retry in
         try_except (execute_method params)
           (fun _ =>
              let! _ := log Error "Retry failed" in
              ret None)
       else
         let! _ := log Error "Execution failed" in
         ret None).

Definition _process_signal (s : signal) : M world (option Signal) :=
  let! params := _prepare_params s in
  execute_with_retry _execute params.

(** One iteration of the [for] loop of [process_signals].  On a single
    thread [self._process_lock] is free whenever the [with] statement is
    reached and is released however its body ends, so the statement is
    its body. *)
Definition loop_body (s : signal) (output : list Signal)
    : M world (list Signal) :=
  let! n := get_num_locks in
  if bool_decide (_max_locks <= n) then
    let! _ := log Debug "Skipping signal; max numbers of signals waiting" in
    ret output
  else
    let! _ := add_num_locks 1 in
    let! output_signal := _process_signal s in
    let output :=
      match output_signal with
      | Some sg => output ++ [sg]
      | None => output
      end in
    let! _ := add_num_locks (-1) in
    ret output.

Fixpoint for_signals (signals : list signal) (output : list Signal)
    : M world (list Signal) :=
  match signals with
  | [] => ret output
  | s :: rest =>
      let! output := loop_body s output in
      for_signals rest output
  end.

Definition process_signals (signals : list signal) : M world unit :=
  let! output := for_signals signals [] in
  match output with
  | [] => ret tt
  | _ :: _ => notify_signals output
  end.

(** ** The loop of [process_signals] as a step relation

    The same statements, one at a time, for properties of the states in
    between: where the loop stands, and the world. *)
Inductive pc : Type :=
| LoopHead (pending : list signal) (output : list Signal)
| Locked (s : signal) (pending : list signal) (output : list Signal)
| Unlocked (pending : list signal) (output : list Signal)
| Finished
| Propagating (e : exn).

Inductive step : pc * world -> pc * world -> Prop :=
| step_skip s rest output w w' :
    _max_locks <= _num_locks w ->
    log Debug "Skipping signal; max numbers of signals waiting" w = (Ret tt, w') ->
    step (LoopHead (s :: rest) output, w) (LoopHead rest output, w')
| step_admit s rest output w w' :
    ~ _max_locks <= _num_locks w ->
    add_num_locks 1 w = (Ret tt, w') ->
    step (LoopHead (s :: rest) output, w) (Locked s rest output, w')
| step_processed s rest output w output_signal w' :
    _process_signal s w = (Ret output_signal, w') ->
    step (Locked s rest output, w)
         (Unlocked rest (output ++ option_list output_signal), w')
| step_raised s rest output w e w' :
    _process_signal s w = (Raise e, w') ->
    step (Locked s rest output, w) (Propagating e, w')
| step_release rest output w w' :
    add_num_locks (-1) w = (Ret tt, w') ->
    step (Unlocked rest output, w) (LoopHead rest output, w')
| step_finish output w w' :
    (match output with
     | [] => ret tt
     | _ :: _ => notify_signals output
     end) w = (Ret tt, w') ->
    step (LoopHead [] output, w) (Finished, w').

(** ** Successive deliveries

    The framework hands the block one batch after another; a batch that
    raises does not stop the block.  [delivered w k w'] : some batches
    take the block from [w] to [w'], [k] of them raising. *)
Inductive delivered : world -> nat -> world -> Prop :=
| delivered_none w : delivered w 0 w
| delivered_returned w k w1 signals w2 :
    delivered w k w1 ->
    process_signals signals w1 = (Ret tt, w2) ->
    delivered w k w2
| delivered_raised w k w1 signals e w2 :
    delivered w k w1 ->
    process_signals signals w1 = (Raise e, w2) ->
    delivered w (S k) w2.

End Block.

End RTU.

(** * Concrete blocks, signals and devices *)

Module Samples.

(** A signal, as far as the blocks look at it: what its address and value
    expressions evaluate to ([None]: the evaluation raises). *)
Record event : Type := {
  ev_address : option pyval;
  ev_value : option pyval
}.

(** [int(v)] on the values the samples use: exact on ints, bools, [None]
    and lists; the samples hold no numeric strings. *)
Definition int_of (v : pyval) : option Z :=
  match v with
  | PyInt z => Some z
  | PyBool b => Some (if b then 1 else 0)
  | _ => None
  end.

Definition e1 : event :=
  {| ev_address := Some (PyInt 1); ev_value := Some (PyBool true) |}.
Definition e2 : event :=
  {| ev_address := Some (PyInt 2); ev_value := None |}.
Definition e3 : event :=
  {| ev_address := Some (PyInt 3); ev_value := Some (PyBool false) |}.

(** An event whose address expression raises. *)
Definition e_noaddr : event :=
  {| ev_address := None; ev_value := Some (PyBool true) |}.

(** An event writing a sequence. *)
Definition e_seq : event :=
  {| ev_address := Some (PyInt 7);
     ev_value := Some (PyList [PyBool true; PyBool false]) |}.

Definition tcp_reply : TCP.response :=
  {| TCP.resp_dict := {["function_code" := PyInt 5]};
     TCP.resp_truthy := true |}.

(** A TCP device that always answers. *)
Definition tcp_up : list TCP.io_event -> string -> gmap string pyval ->
                    TCP.outcome :=
  fun _ _ _ => TCP.Returns tcp_reply.

(** A TCP device that answers only once the client has been rebuilt. *)
Definition tcp_up_after_reconnect
    : list TCP.io_event -> string -> gmap string pyval -> TCP.outcome :=
  fun history _ _ =>
    if existsb (fun ev => match ev with TCP.Connect => true | _ => false end)
               history
    then TCP.Returns tcp_reply
    else TCP.Raises ModbusIOException.

(** A TCP device that is gone. *)
Definition tcp_down : list TCP.io_event -> string -> gmap string pyval ->
                      TCP.outcome :=
  fun _ _ _ => TCP.Raises ModbusIOException.

(** An instrument that returns two registers on every call. *)
Definition rtu_up : list RTU.io_event -> string -> gmap string pyval ->
                    RTU.outcome :=
  fun _ _ _ => RTU.Returns (PyList [PyInt 10; PyInt 20]).

(** An instrument whose calls return [None], as minimalmodbus writes do. *)
Definition rtu_none : list RTU.io_event -> string -> gmap string pyval ->
                      RTU.outcome :=
  fun _ _ _ => RTU.Returns PyNone.


Definition close_ok : list RTU.io_event -> option exn := fun _ => None.


(** A TCP device whose answers are falsy objects. *)
Definition tcp_empty : list TCP.io_event -> string -> gmap string pyval ->
                       TCP.outcome :=
  fun _ _ _ => TCP.Returns {| TCP.resp_dict := ∅; TCP.resp_truthy := false |}.

(** A serial port that cannot be closed. *)
Definition close_fails : list RTU.io_event -> option exn :=
  fun _ => Some IOError.

End Samples.

(** * Measures on transport histories *)

Module Measure.

Definition tcp_is_call (ev : TCP.io_event) : bool :=
  match ev with
  | TCP.Call _ _ => true
  | TCP.Connect => false
  end.

(** How many client calls, and how many reconnects, a history holds. *)
Definition tcp_calls (k : list TCP.io_event) : nat :=
  length (List.filter tcp_is_call k).

Definition tcp_connects (k : list TCP.io_event) : nat :=
  length (List.filter (fun ev => negb (tcp_is_call ev)) k).

(** A transport operation a batch may cause: a reconnect, or a call of
    the configured function at the resolved address of one of the
    batch's signals. *)
Definition tcp_expected {signal : Type} (function_name : TCP.FunctionName)
    (address : signal -> option pyval) (py_int : pyval -> option Z)
    (signals : list signal) (ev : TCP.io_event) : Prop :=
  match ev with
  | TCP.Connect => True
  | TCP.Call f p =>
      f = TCP.FunctionName_value function_name /\
      exists s a,
        s ∈ signals /\ address s ≫= py_int = Some a /\
        p !! "address" = Some (PyInt a)
  end.

(** Where the loop of the RTU [process_signals] stands relative to the
    waiting count [n0] the batch started with: one slot is held exactly
    between the increment and the decrement, and after an exception. *)
Definition rtu_held {signal : Type} (c : RTU.pc signal) : Z :=
  match c with
  | RTU.LoopHead _ _ _ | RTU.Finished _ => 0
  | RTU.Locked _ _ _ _ | RTU.Unlocked _ _ _ | RTU.Propagating _ _ => 1
  end.

End Measure.

(** * Facts about the TCP block *)

Module TCPFacts.
Import TCP.

Ltac run :=
  unfold bind, ret, raise, try_except, log, notify_signals, _connect,
         client_call, emit; simpl.

Section Facts.

Context {signal : Type}.
Variable function_name : FunctionName.
Variable address : signal -> option pyval.
Variable value : signal -> option pyval.
Variable py_int : pyval -> option Z.
Variable device : list io_event -> string -> gmap string pyval -> outcome.

Local Abbreviation _execute := (TCP._execute device).
Local Abbreviation _address := (TCP._address signal address py_int).
Local Abbreviation _prepare_params := (TCP._prepare_params signal value).
Local Abbreviation loop_body :=
  (TCP.loop_body signal function_name address value py_int device).
Local Abbreviation for_signals :=
  (TCP.for_signals signal function_name address value py_int device).
Local Abbreviation process_signals :=
  (TCP.process_signals signal function_name address value py_int device).

(** [_execute] satisfies the recursive equation of the source. *)
Lemma execute_unfold f p retry w :
  _execute f p retry w = _execute_body device _execute f p retry w.
Proof.
  unfold TCP._execute, _execute_body. run.
  destruct (device (io w) f p) as [r|[]]; reflexivity.
Qed.

(** The first attempt returns: one call, and a signal if the result is
    truthy. *)
Lemma tcp_execute_returns f p w r :
  device (io w) f p = Returns r ->
  _execute f p false w =
    (Ret (if resp_truthy r
          then Some {| sig_attrs := resp_dict r; sig_params := p |}
          else None),
     emit (Call f p) w).
Proof.
  intros H. unfold TCP._execute, _execute_body. run. rewrite H.
  destruct (resp_truthy r); reflexivity.
Qed.

(** The first attempt raises [ModbusIOException]: reconnect, one more
    call, and nothing returned whatever the second call does. *)
Lemma execute_io_error f p w :
  device (io w) f p = Raises ModbusIOException ->
  exists w',
    _execute f p false w = (Ret None, w') /\
    io w' = io w ++ [Call f p; Connect; Call f p] /\
    notified w' = notified w.
Proof.
  intros H. unfold TCP._execute, _execute_body. run. rewrite H. simpl.
  clear H. destruct (device _ f p) as [r|[]]; simpl;
    try destruct (resp_truthy r); simpl;
    eexists; (split; [reflexivity|]); simpl;
    rewrite <- !app_assoc; auto.
Qed.

(** The first attempt raises anything else: no retry. *)
Lemma execute_other_error f p w e :
  device (io w) f p = Raises e ->
  e <> ModbusIOException ->
  exists w',
    _execute f p false w = (Ret None, w') /\
    io w' = io w ++ [Call f p] /\
    notified w' = notified w.
Proof.
  intros H Hne. unfold TCP._execute, _execute_body. run. rewrite H.
  destruct e; try congruence; simpl; eexists; (split; [reflexivity|]);
    simpl; auto.
Qed.

(** [_execute] never raises and never notifies; it calls once or, after
    a reconnect, twice. *)
Lemma execute_total f p w :
  exists o w',
    _execute f p false w = (Ret o, w') /\
    notified w' = notified w /\
    (io w' = io w ++ [Call f p] \/
     io w' = io w ++ [Call f p; Connect; Call f p]).
Proof.
  destruct (device (io w) f p) as [r|e] eqn:H.
  - rewrite (tcp_execute_returns _ _ _ _ H). eexists _, _.
    split; [reflexivity|]. simpl. auto.
  - assert (e = ModbusIOException \/ e <> ModbusIOException) as [->|Hne]
      by (destruct e; auto; right; discriminate).
    + destruct (execute_io_error _ _ _ H) as (w' & -> & Hio & Hn).
      eexists _, _. split; [reflexivity|]. auto.
    + destruct (execute_other_error _ _ _ _ H Hne) as (w' & -> & Hio & Hn).
      eexists _, _. split; [reflexivity|]. auto.
Qed.

(** [_address] returns what the expression and [int] give, touches no
    transport, and leaves the world alone when it succeeds. *)
Lemma tcp_address_spec s w :
  exists w',
    _address s w = (Ret (address s ≫= py_int), w') /\
    io w' = io w /\ notified w' = notified w /\
    (is_Some (address s ≫= py_int) -> w' = w).
Proof.
  unfold TCP._address.
  destruct (address s) as [v|]; simpl; [destruct (py_int v); simpl|];
    run; eexists; (split; [reflexivity|]); simpl;
    repeat split; auto; intros [? ?]; discriminate.
Qed.

(** [_prepare_params] never raises; it yields [None] exactly when a
    write function's value expression raises. *)
Lemma prepare_params_spec s w :
  exists o w',
    _prepare_params (FunctionName_value function_name) s w = (Ret o, w') /\
    io w' = io w /\ notified w' = notified w /\
    (is_Some o -> w' = w) /\
    (o = None <-> is_write function_name = true /\ value s = None).
Proof.
  unfold TCP._prepare_params.
  destruct function_name; simpl; run;
    try (eexists _, _; split; [reflexivity|]; simpl;
         repeat split; auto; try discriminate; intros [? ?]; discriminate);
    destruct (value s); simpl;
    eexists _, _; (split; [reflexivity|]); simpl;
    repeat split; auto; try discriminate;
    try (intros [? ?]; discriminate); intros [? ?]; discriminate.
Qed.

(** An iteration for a signal whose parameters build: no exception; the
    transport history only grows; a resolved address gets its call; an
    unresolved one leaves transport and output as they were. *)
Lemma tcp_loop_body_builds s output w :
  (is_write function_name = true -> is_Some (value s)) ->
  exists output' w',
    loop_body s output w = (Ret output', w') /\
    io w `prefix_of` io w' /\
    notified w' = notified w /\
    (forall a, address s ≫= py_int = Some a ->
       exists d,
         Call (FunctionName_value function_name) (<["address" := PyInt a]> d)
           ∈ io w') /\
    (address s ≫= py_int = None -> output' = output /\ io w' = io w).
Proof.
  intros Hb. unfold TCP.loop_body.
  destruct (tcp_address_spec s w) as (w1 & Ha & Hio1 & Hn1 & _).
  destruct (prepare_params_spec s w1) as (o & w2 & Hp & Hio2 & Hn2 & _ & Ho).
  unfold bind at 1. rewrite Ha. unfold bind at 1. rewrite Hp.
  destruct o as [d|].
  2:{ destruct Ho as [Ho _]. destruct (Ho eq_refl) as [Hw Hv].
      destruct (Hb Hw) as [v Hv']. congruence. }
  unfold setitem. unfold bind at 1, ret at 1.
  destruct (address s ≫= py_int) as [a|]; simpl.
  - destruct (execute_total (FunctionName_value function_name)
                (<["address" := PyInt a]> d) w2) as (r & w3 & He & Hn3 & Hio3).
    unfold bind. rewrite He.
    exists (match r with Some sg => output ++ [sg] | None => output end), w3.
    split; [destruct r; reflexivity|].
    assert (io w `prefix_of` io w3) as Hpre.
    { destruct Hio3 as [-> | ->]; rewrite Hio2, Hio1; eexists; reflexivity. }
    split; [exact Hpre|]. split; [congruence|]. split; [|discriminate].
    intros a' [= <-]. exists d.
    destruct Hio3 as [-> | ->]; rewrite !elem_of_app, !elem_of_cons; auto.
  - unfold ret. eexists _, _. split; [reflexivity|].
    rewrite Hio2, Hio1, Hn2, Hn1. repeat split; auto. discriminate.
Qed.

(** An iteration for a signal whose address does not resolve: nothing
    reaches the transport and nothing is added to the output. *)
Lemma loop_body_unresolved s output w :
  address s ≫= py_int = None ->
  exists r w',
    loop_body s output w = (r, w') /\
    io w' = io w /\ notified w' = notified w /\
    (r = Ret output \/ exists msg, r = Raise (TypeError msg)).
Proof.
  intros Hu. unfold TCP.loop_body.
  destruct (tcp_address_spec s w) as (w1 & Ha & Hio1 & Hn1 & _).
  destruct (prepare_params_spec s w1) as (o & w2 & Hp & Hio2 & Hn2 & _).
  unfold bind at 1. rewrite Ha. unfold bind at 1. rewrite Hp. rewrite Hu.
  destruct o as [d|]; run; eexists _, _; (split; [reflexivity|]);
    rewrite Hio2, Hio1, Hn2, Hn1; eauto.
Qed.

(** A batch whose parameters all build is processed to its end. *)
Lemma tcp_for_signals_builds signals : forall output w,
  (forall s, s ∈ signals -> is_write function_name = true ->
             is_Some (value s)) ->
  exists output' w',
    for_signals signals output w = (Ret output', w') /\
    io w `prefix_of` io w' /\
    notified w' = notified w /\
    (forall s a, s ∈ signals -> address s ≫= py_int = Some a ->
       exists d,
         Call (FunctionName_value function_name) (<["address" := PyInt a]> d)
           ∈ io w').
Proof.
  induction signals as [|s rest IH]; intros output w Hb; simpl.
  - exists output, w. unfold ret. repeat split; auto.
    intros s a Hs. inversion Hs.
  - destruct (tcp_loop_body_builds s output w) as (o1 & w1 & H1 & Hp1 & Hn1 & Hc1 & _).
    { intros Hw. apply (Hb s); [left|exact Hw]. }
    destruct (IH o1 w1) as (o2 & w2 & H2 & Hp2 & Hn2 & Hc2).
    { intros s' Hs'. apply Hb. right. exact Hs'. }
    unfold bind. rewrite H1. exists o2, w2.
    split; [exact H2|]. split; [etrans; eauto|]. split; [congruence|].
    intros s' a Hs' Ha. apply elem_of_cons in Hs' as [->|Hs'].
    + destruct (Hc1 a Ha) as (d & Hd). exists d.
      destruct Hp2 as [k ->]. apply elem_of_app. auto.
    + eauto.
Qed.

End Facts.

End TCPFacts.

(** * Facts about the RTU block *)

Module RTUFacts.
Import RTU.

Ltac run :=
  unfold bind, ret, raise, try_except, log, notify_signals, get_num_locks,
         add_num_locks, emit; simpl.

Lemma preserves_ret {A} (a : A) : preserves (ret a).
Proof. intros w r w' [= <- <-]. auto. Qed.

Lemma preserves_raise {A} e : preserves (raise e : M world A).
Proof. intros w r w' [= <- <-]. auto. Qed.

Lemma preserves_log lvl msg : preserves (log lvl msg).
Proof. intros w r w' [= <- <-]. simpl. auto. Qed.

Lemma preserves_emit ev : preserves (fun w => (Ret tt, emit ev w)).
Proof.
  intros w r w' [= <- <-]. simpl. repeat split. by apply prefix_app_r.
Qed.

Lemma preserves_bind {A B} (m : M world A) (k : A -> M world B) :
  preserves m -> (forall a, preserves (k a)) -> preserves (bind m k).
Proof.
  intros Hm Hk w r w' H. unfold bind in H.
  destruct (m w) as [[a|e] w1] eqn:E; destruct (Hm _ _ _ E) as (H1 & H2 & H3).
  - destruct (Hk a _ _ _ H) as (H4 & H5 & H6).
    repeat split; [congruence|congruence|by etrans].
  - injection H as <- <-. auto.
Qed.

Lemma preserves_try {A} (m : M world A) (h : exn -> M world A) :
  preserves m -> (forall e, preserves (h e)) -> preserves (try_except m h).
Proof.
  intros Hm Hh w r w' H. unfold try_except in H.
  destruct (m w) as [[a|e] w1] eqn:E; destruct (Hm _ _ _ E) as (H1 & H2 & H3).
  - injection H as <- <-. auto.
  - destruct (Hh e _ _ _ H) as (H4 & H5 & H6).
    repeat split; [congruence|congruence|by etrans].
Qed.

Create HintDb preserves.
#[local] Hint Resolve preserves_ret preserves_raise preserves_log
  preserves_emit : preserves.

Ltac preserves_tac :=
  repeat first
    [ solve [auto with preserves]
    | apply preserves_bind; [|intros ?]
    | apply preserves_try; [|intros ?] ].

Section Facts.

Context {signal : Type}.
Variable function_name : FunctionName.
Variable address : signal -> option pyval.
Variable value : signal -> option pyval.
Variable count : Z.
Variable py_int : pyval -> option Z.
Variable device : list io_event -> string -> gmap string pyval -> outcome.
Variable serial_close : list io_event -> option exn.

Local Abbreviation _modbus_function := (RTU._modbus_function function_name).
Local Abbreviation _connect := RTU._connect.
Local Abbreviation _close := (RTU._close serial_close).
Local Abbreviation before_retry := (RTU.before_retry serial_close).
Local Abbreviation client_call := (RTU.client_call function_name device).
Local Abbreviation _execute := (RTU._execute function_name device).
Local Abbreviation _address := (RTU._address signal address py_int).
Local Abbreviation _prepare_params :=
  (RTU._prepare_params signal function_name address value count py_int).
Local Abbreviation execute_with_retry := (RTU.execute_with_retry serial_close).
Local Abbreviation _process_signal :=
  (RTU._process_signal signal function_name address value count py_int
     device serial_close).
Local Abbreviation loop_body :=
  (RTU.loop_body signal function_name address value count py_int
     device serial_close).
Local Abbreviation for_signals :=
  (RTU.for_signals signal function_name address value count py_int
     device serial_close).
Local Abbreviation process_signals :=
  (RTU.process_signals signal function_name address value count py_int
     device serial_close).

(** Every function code of the enumeration names a client method. *)
Lemma modbus_function_defined : exists f, _modbus_function = Some f.
Proof. destruct function_name; eexists; reflexivity. Qed.

Lemma preserves_connect : preserves _connect.
Proof. unfold RTU._connect. preserves_tac. Qed.

Lemma preserves_close : preserves _close.
Proof.
  intros w r w' H. unfold RTU._close in H.
  destruct (serial_close (io w)); injection H as <- <-; simpl;
    repeat split; by apply prefix_app_r.
Qed.

Lemma preserves_before_retry : preserves before_retry.
Proof.
  unfold RTU.before_retry. apply preserves_bind; [apply preserves_close|].
  intros _. apply preserves_connect.
Qed.

Lemma preserves_client_call p : preserves (client_call p).
Proof.
  unfold RTU.client_call. destruct _modbus_function as [f|];
    [|apply preserves_raise].
  intros w r w' H. destruct (device (io w) f p); injection H as <- <-;
    simpl; repeat split; by apply prefix_app_r.
Qed.

Lemma preserves_execute p : preserves (_execute p).
Proof.
  unfold RTU._execute. pose proof (preserves_client_call p).
  preserves_tac.
Qed.

Lemma preserves_address s : preserves (_address s).
Proof.
  unfold RTU._address. destruct (address s) as [v|];
    [destruct (py_int v)|]; preserves_tac.
Qed.

Lemma preserves_prepare_params s : preserves (_prepare_params s).
Proof.
  unfold RTU._prepare_params. pose proof (preserves_address s).
  preserves_tac.
  repeat case_match; preserves_tac.
Qed.

Lemma preserves_execute_with_retry p :
  preserves (execute_with_retry _execute p).
Proof.
  unfold RTU.execute_with_retry.
  pose proof (preserves_execute p). pose proof preserves_before_retry.
  preserves_tac. case_match; preserves_tac.
Qed.

(** Processing one signal never touches the waiting count. *)
Lemma preserves_process_signal s : preserves (_process_signal s).
Proof.
  unfold RTU._process_signal. pose proof (preserves_prepare_params s).
  apply preserves_bind; [assumption|]. intros p.
  apply preserves_execute_with_retry.
Qed.

(** [_address] as a function of the signal; no transport involved. *)
Lemma rtu_address_spec s w :
  exists w',
    _address s w = (Ret (address s ≫= py_int), w') /\
    io w' = io w /\ notified w' = notified w /\
    _num_locks w' = _num_locks w.
Proof.
  unfold RTU._address.
  destruct (address s) as [v|]; simpl; [destruct (py_int v); simpl|];
    run; eexists; (split; [reflexivity|]); simpl; auto.
Qed.

(** [_prepare_params] with the address step taken. *)
Lemma prepare_params_eq s w :
  exists w',
    io w' = io w /\ notified w' = notified w /\
    _num_locks w' = _num_locks w /\
    _prepare_params s w =
      (let code := FunctionName_value function_name in
       let base : gmap string pyval :=
         <["registeraddress" := py_of_option_int (address s ≫= py_int)]>
           (<["functioncode" := PyInt code]> ∅) in
       if py_in code [3; 4] then
         Ret (<["numberOfRegisters" := PyInt count]> base)
       else if py_in code [5; 6; 15; 16] then
         match value s with
         | Some v => Ret (<["value" := v]> base)
         | None => Raise (Exception "Invalid configuration of `value` property")
         end
       else Ret base,
       w').
Proof.
  destruct (rtu_address_spec s w) as (w' & Ha & Hio & Hn & Hl).
  exists w'. repeat (split; [assumption|]).
  unfold RTU._prepare_params. cbv zeta. unfold bind at 1. rewrite Ha.
  repeat case_match; reflexivity.
Qed.

(** A write whose value expression raises: [_prepare_params] raises
    before anything reaches the transport. *)
Lemma prepare_params_raises s w :
  is_write function_name = true ->
  value s = None ->
  exists w',
    _prepare_params s w =
      (Raise (Exception "Invalid configuration of `value` property"), w') /\
    io w' = io w /\ notified w' = notified w /\
    _num_locks w' = _num_locks w.
Proof.
  intros Hw Hv. destruct (prepare_params_eq s w) as (w' & Hio & Hn & Hl & ->).
  exists w'. rewrite Hv. split; [|auto].
  destruct function_name; try discriminate; reflexivity.
Qed.

(** Otherwise it returns a dict. *)
Lemma prepare_params_returns s w :
  (is_write function_name = true -> is_Some (value s)) ->
  exists p w',
    _prepare_params s w = (Ret p, w') /\
    io w' = io w /\ notified w' = notified w /\
    _num_locks w' = _num_locks w /\
    p !! "registeraddress" = Some (py_of_option_int (address s ≫= py_int)).
Proof.
  intros Hb. destruct (prepare_params_eq s w) as (w' & Hio & Hn & Hl & ->).
  destruct function_name; simpl in Hb; cbv zeta;
    try (destruct (Hb eq_refl) as [v ->]);
    eexists _, w'; (split; [reflexivity|]);
    repeat (split; [assumption|]); by simplify_map_eq.
Qed.

(** One attempt on the instrument. *)
Lemma rtu_execute_returns f p w r :
  _modbus_function = Some f ->
  device (io w) f p = Returns r ->
  exists w',
    _execute p w = (Ret (_process_response r p), w') /\
    io w' = io w ++ [Call f p] /\ notified w' = notified w /\
    _num_locks w' = _num_locks w.
Proof.
  intros Hf Hd. unfold RTU._execute, RTU.client_call. rewrite Hf. run.
  rewrite Hd. eexists. split; [reflexivity|]. simpl. auto.
Qed.

Lemma execute_raises f p w e :
  _modbus_function = Some f ->
  device (io w) f p = Raises e ->
  exists w',
    _execute p w = (Raise e, w') /\
    io w' = io w ++ [Call f p] /\ notified w' = notified w /\
    _num_locks w' = _num_locks w.
Proof.
  intros Hf Hd. unfold RTU._execute, RTU.client_call. rewrite Hf. run.
  rewrite Hd. eexists. split; [reflexivity|]. simpl. auto.
Qed.

Lemma before_retry_spec w :
  exists w',
    before_retry w = (Ret tt, w') /\
    io w' = io w ++ [SerialClose; Connect] /\ notified w' = notified w /\
    _num_locks w' = _num_locks w.
Proof.
  unfold RTU.before_retry, RTU._close, RTU._connect. run.
  destruct (serial_close (io w)); simpl; eexists;
    (split; [reflexivity|]); simpl; rewrite <- app_assoc; auto.
Qed.

(** The retry wrapper when the first attempt returns. *)
Lemma retry_first_returns f p w r :
  _modbus_function = Some f ->
  device (io w) f p = Returns r ->
  exists w',
    execute_with_retry _execute p w = (Ret (_process_response r p), w') /\
    io w' = io w ++ [Call f p] /\ notified w' = notified w /\
    _num_locks w' = _num_locks w.
Proof.
  intros Hf Hd. destruct (rtu_execute_returns f p w r Hf Hd) as (w' & He & H).
  exists w'. split; [|exact H].
  unfold RTU.execute_with_retry, try_except. by rewrite He.
Qed.

(** ... when it raises a transport I/O error: close, connect, one more
    attempt, whose result is returned if it returns. *)
Lemma retry_first_io_error f p w e :
  _modbus_function = Some f ->
  device (io w) f p = Raises e ->
  is_io_error e = true ->
  exists o w',
    execute_with_retry _execute p w = (Ret o, w') /\
    io w' = io w ++ [Call f p; SerialClose; Connect; Call f p] /\
    notified w' = notified w /\
    _num_locks w' = _num_locks w /\
    o = match device (io w ++ [Call f p; SerialClose; Connect]) f p with
        | Returns r => _process_response r p
        | Raises _ => None
        end.
Proof.
  intros Hf Hd Hio.
  destruct (execute_raises f p w e Hf Hd) as (w1 & He & Hio1 & Hn1 & Hl1).
  unfold RTU.execute_with_retry. unfold try_except at 1. rewrite He, Hio.
  unfold bind at 1. simpl.
  match goal with |- context [bind _ _ ?x] => set (w2 := x) end.
  destruct (before_retry_spec w2) as (w3 & Hb & Hio3 & Hn3 & Hl3).
  unfold bind at 1. rewrite Hb.
  assert (io w3 = io w ++ [Call f p; SerialClose; Connect]) as Hio3'.
  { rewrite Hio3. subst w2. simpl. rewrite Hio1, <- app_assoc. reflexivity. }
  unfold try_except. rewrite <- Hio3'.
  destruct (device (io w3) f p) as [r|e'] eqn:Hd2.
  - destruct (rtu_execute_returns f p w3 r Hf Hd2) as (w4 & -> & Hio4 & Hn4 & Hl4).
    eexists _, _. split; [reflexivity|].
    rewrite Hio4, Hio3', <- app_assoc, Hn4, Hn3, Hl4, Hl3. subst w2. simpl.
    auto.
  - destruct (execute_raises f p w3 e' Hf Hd2) as (w4 & -> & Hio4 & Hn4 & Hl4).
    run. eexists _, _. split; [reflexivity|]. simpl.
    rewrite Hio4, Hio3', <- app_assoc, Hn4, Hn3, Hl4, Hl3. subst w2. simpl.
    auto.
Qed.

(** ... and when it raises anything else: no retry. *)
Lemma retry_first_other_error f p w e :
  _modbus_function = Some f ->
  device (io w) f p = Raises e ->
  is_io_error e = false ->
  exists w',
    execute_with_retry _execute p w = (Ret None, w') /\
    io w' = io w ++ [Call f p] /\ notified w' = notified w /\
    _num_locks w' = _num_locks w.
Proof.
  intros Hf Hd Hio.
  destruct (execute_raises f p w e Hf Hd) as (w1 & He & Hio1 & Hn1 & Hl1).
  unfold RTU.execute_with_retry. unfold try_except at 1. rewrite He, Hio.
  run. eexists. split; [reflexivity|]. simpl. auto.
Qed.

(** The wrapper never raises. *)
Lemma retry_total p w :
  exists o w', execute_with_retry _execute p w = (Ret o, w').
Proof.
  destruct modbus_function_defined as [f Hf].
  destruct (device (io w) f p) as [r|e] eqn:Hd.
  - destruct (retry_first_returns f p w r Hf Hd) as (w' & H & _). eauto.
  - destruct (is_io_error e) eqn:Hio.
    + destruct (retry_first_io_error f p w e Hf Hd Hio) as (o & w' & H & _).
      eauto.
    + destruct (retry_first_other_error f p w e Hf Hd Hio) as (w' & H & _).
      eauto.
Qed.

(** ** The admission gate *)

(** At the ceiling the iteration only logs. *)
Lemma loop_body_skips s output w :
  _max_locks <= _num_locks w ->
  exists w',
    loop_body s output w = (Ret output, w') /\
    io w' = io w /\ notified w' = notified w /\
    _num_locks w' = _num_locks w.
Proof.
  intros H. unfold RTU.loop_body. run.
  rewrite bool_decide_eq_true_2 by assumption.
  eexists. split; [reflexivity|]. simpl. auto.
Qed.

(** Below the ceiling the signal is processed with the count raised by
    one, and the count is lowered again only on the normal path. *)
Lemma loop_body_admits s output w :
  _num_locks w < _max_locks ->
  loop_body s output w =
    match _process_signal s (snd (add_num_locks 1 w)) with
    | (Ret output_signal, w1) =>
        (Ret (output ++ option_list output_signal),
         snd (add_num_locks (-1) w1))
    | (Raise e, w1) => (Raise e, w1)
    end.
Proof.
  intros H. unfold RTU.loop_body. run.
  rewrite bool_decide_eq_false_2 by lia.
  destruct (_process_signal s _) as [[[sg|]|e] w1]; simpl;
    rewrite ?app_nil_r; reflexivity.
Qed.

(** The effect of one iteration on the count. *)
Lemma loop_body_count s output w r w' :
  loop_body s output w = (r, w') ->
  notified w' = notified w /\
  io w `prefix_of` io w' /\
  match r with
  | Ret _ => _num_locks w' = _num_locks w
  | Raise _ => _num_locks w' = _num_locks w + 1 /\ _num_locks w < _max_locks
  end.
Proof.
  intros H. destruct (decide (_max_locks <= _num_locks w)) as [Hc|Hc].
  - destruct (loop_body_skips s output w Hc) as (w1 & H1 & Hio & Hn & Hl).
    rewrite H1 in H. injection H as <- <-.
    rewrite Hio. auto.
  - rewrite loop_body_admits in H by lia.
    destruct (_process_signal s _) as [[o|e] w1] eqn:E;
      destruct (preserves_process_signal s _ _ _ E) as (Hl & Hn & Hio);
      injection H as <- <-; simpl in *; (split; [assumption|]);
      (split; [assumption|]); lia.
Qed.

Lemma for_signals_count signals : forall output w r w',
  for_signals signals output w = (r, w') ->
  notified w' = notified w /\
  io w `prefix_of` io w' /\
  match r with
  | Ret _ => _num_locks w' = _num_locks w
  | Raise _ => _num_locks w' = _num_locks w + 1
  end.
Proof.
  induction signals as [|s rest IH]; intros output w r w' H; simpl in H.
  - injection H as <- <-. auto.
  - unfold bind in H.
    destruct (loop_body s output w) as [[o1|e] w1] eqn:E;
      destruct (loop_body_count _ _ _ _ _ E) as (Hn & Hio & Hl).
    + destruct (IH _ _ _ _ H) as (Hn' & Hio' & Hl').
      split; [congruence|]. split; [by etrans|].
      destruct r; lia.
    + injection H as <- <-. split; [assumption|]. split; [assumption|]. lia.
Qed.

(** A batch that returns leaves the count as it found it; a batch that
    raises leaves it one higher. *)
Lemma process_signals_count signals w r w' :
  process_signals signals w = (r, w') ->
  io w `prefix_of` io w' /\
  match r with
  | Ret _ => _num_locks w' = _num_locks w
  | Raise _ => _num_locks w' = _num_locks w + 1 /\ notified w' = notified w
  end.
Proof.
  unfold RTU.process_signals, bind. intros H.
  destruct (for_signals signals [] w) as [[out|e] w1] eqn:E;
    destruct (for_signals_count _ _ _ _ _ E) as (Hn & Hio & Hl).
  - destruct out; injection H as <- <-; simpl; auto.
  - injection H as <- <-. auto.
Qed.

(** At the ceiling a whole batch is shed. *)
Lemma for_signals_shed signals : forall output w,
  _max_locks <= _num_locks w ->
  exists w',
    for_signals signals output w = (Ret output, w') /\
    io w' = io w /\ notified w' = notified w /\
    _num_locks w' = _num_locks w.
Proof.
  induction signals as [|s rest IH]; intros output w H; simpl.
  - exists w. auto.
  - destruct (loop_body_skips s output w H) as (w1 & H1 & Hio & Hn & Hl).
    destruct (IH output w1) as (w2 & H2 & Hio2 & Hn2 & Hl2); [lia|].
    exists w2. unfold bind. rewrite H1. split; [exact H2|].
    repeat split; congruence.
Qed.

Lemma process_signals_shed signals w :
  _max_locks <= _num_locks w ->
  exists w',
    process_signals signals w = (Ret tt, w') /\
    io w' = io w /\ notified w' = notified w /\
    _num_locks w' = _num_locks w.
Proof.
  intros H. destruct (for_signals_shed signals [] w H) as (w' & H1 & Hr).
  exists w'. unfold RTU.process_signals, bind. rewrite H1. auto.
Qed.

(** The wrapper always makes the call at least once. *)
Lemma retry_calls f p w :
  _modbus_function = Some f ->
  exists o w' k,
    execute_with_retry _execute p w = (Ret o, w') /\
    io w' = io w ++ Call f p :: k /\ notified w' = notified w /\
    _num_locks w' = _num_locks w.
Proof.
  intros Hf. destruct (device (io w) f p) as [r|e] eqn:Hd.
  - destruct (retry_first_returns f p w r Hf Hd) as (w' & H & Hio & Hr).
    exists (_process_response r p), w', []. auto.
  - destruct (is_io_error e) eqn:Hie.
    + destruct (retry_first_io_error f p w e Hf Hd Hie)
        as (o & w' & H & Hio & Hn & Hl & _).
      exists o, w', [SerialClose; Connect; Call f p]. auto.
    + destruct (retry_first_other_error f p w e Hf Hd Hie)
        as (w' & H & Hio & Hr).
      exists None, w', []. auto.
Qed.

(** An iteration for a signal whose parameters build never raises; if
    the signal is admitted, its call reaches the instrument. *)
Lemma rtu_loop_body_builds s output w :
  (is_write function_name = true -> is_Some (value s)) ->
  exists output' w',
    loop_body s output w = (Ret output', w') /\
    _num_locks w' = _num_locks w /\
    notified w' = notified w /\
    io w `prefix_of` io w' /\
    (_num_locks w < _max_locks ->
     exists f p,
       _modbus_function = Some f /\
       p !! "registeraddress"
         = Some (py_of_option_int (address s ≫= py_int)) /\
       Call f p ∈ io w').
Proof.
  intros Hb. destruct (decide (_max_locks <= _num_locks w)) as [Hc|Hc].
  - destruct (loop_body_skips s output w Hc) as (w' & H & Hio & Hn & Hl).
    exists output, w'. rewrite Hio. repeat split; auto. lia.
  - rewrite loop_body_admits by lia.
    set (w0 := snd (add_num_locks 1 w)).
    destruct (prepare_params_returns s w0 Hb)
      as (p & w1 & Hp & Hio1 & Hn1 & Hl1 & Hreg).
    destruct modbus_function_defined as [f Hf].
    destruct (retry_calls f p w1 Hf) as (o & w2 & k & He & Hio2 & Hn2 & Hl2).
    unfold RTU._process_signal. unfold bind at 1. rewrite Hp, He.
    eexists _, _. split; [reflexivity|]. simpl.
    rewrite Hl2, Hl1, Hn2, Hn1, Hio2, Hio1. subst w0. simpl.
    split; [lia|]. split; [reflexivity|]. split; [by apply prefix_app_r|].
    intros _. exists f, p. repeat split; auto.
    rewrite elem_of_app, elem_of_cons. auto.
Qed.

(** A batch whose parameters all build is processed to its end. *)
Lemma rtu_for_signals_builds signals : forall output w,
  (forall s, s ∈ signals -> is_write function_name = true ->
             is_Some (value s)) ->
  exists output' w',
    for_signals signals output w = (Ret output', w') /\
    _num_locks w' = _num_locks w /\
    io w `prefix_of` io w' /\
    (_num_locks w < _max_locks ->
     forall s, s ∈ signals ->
       exists f p,
         _modbus_function = Some f /\
         p !! "registeraddress"
           = Some (py_of_option_int (address s ≫= py_int)) /\
         Call f p ∈ io w').
Proof.
  induction signals as [|s rest IH]; intros output w Hb; simpl.
  - exists output, w. unfold ret. repeat split; auto.
    intros _ s Hs. inversion Hs.
  - destruct (rtu_loop_body_builds s output w)
      as (o1 & w1 & H1 & Hl1 & Hn1 & Hp1 & Hc1).
    { intros Hw. apply (Hb s); [left|exact Hw]. }
    destruct (IH o1 w1) as (o2 & w2 & H2 & Hl2 & Hp2 & Hc2).
    { intros s' Hs'. apply Hb. right. exact Hs'. }
    unfold bind. rewrite H1. exists o2, w2.
    split; [exact H2|]. split; [congruence|]. split; [by etrans|].
    intros Hlt s' Hs'. apply elem_of_cons in Hs' as [->|Hs'].
    + destruct (Hc1 Hlt) as (f & p & Hf & Hreg & Hin). exists f, p.
      repeat split; auto. destruct Hp2 as [k ->]. apply elem_of_app. auto.
    + apply Hc2; [lia|exact Hs'].
Qed.

(** ** The step relation against the loop *)

Local Abbreviation step :=
  (RTU.step signal function_name address value count py_int
     device serial_close).

Lemma for_signals_steps signals : forall output w r w',
  for_signals signals output w = (r, w') ->
  rtc step (LoopHead signal signals output, w)
    (match r with
     | Ret output' => LoopHead signal [] output'
     | Raise e => Propagating signal e
     end, w').
Proof.
  induction signals as [|s rest IH]; intros output w r w' H; simpl in H.
  - injection H as <- <-. apply rtc_refl.
  - unfold bind in H.
    destruct (decide (_max_locks <= _num_locks w)) as [Hc|Hc].
    + destruct (loop_body_skips s output w Hc) as (w1 & H1 & _).
      rewrite H1 in H. eapply rtc_l; [|apply (IH _ _ _ _ H)].
      apply step_skip; [assumption|].
      unfold RTU.loop_body in H1. revert H1. run.
      rewrite bool_decide_eq_true_2 by assumption. intros [= <-].
      reflexivity.
    + rewrite loop_body_admits in H by lia.
      eapply rtc_l; [apply step_admit; [assumption|reflexivity]|].
      destruct (_process_signal s _) as [[o|e] w1] eqn:E.
      * eapply rtc_l; [apply step_processed; exact E|].
        eapply rtc_l; [apply step_release; reflexivity|].
        apply (IH _ _ _ _ H).
      * injection H as <- <-.
        eapply rtc_l; [apply step_raised; exact E|]. apply rtc_refl.
Qed.

(** Every run of [process_signals] is a run of the step relation. *)
Lemma process_signals_steps signals w r w' :
  process_signals signals w = (r, w') ->
  rtc step (LoopHead signal signals [], w)
    (match r with
     | Ret _ => Finished signal
     | Raise e => Propagating signal e
     end, w').
Proof.
  unfold RTU.process_signals. unfold bind at 1. intros H.
  destruct (for_signals signals [] w) as [[out|e] w1] eqn:E;
    pose proof (for_signals_steps _ _ _ _ _ E) as Hs.
  - assert (r = Ret tt) as -> by (destruct out; injection H as <- _; auto).
    eapply rtc_r; [exact Hs|]. apply step_finish.
    destruct out; exact H.
  - injection H as <- <-. exact Hs.
Qed.

(** A step never takes the count above the ceiling. *)
Lemma step_ceiling c c' :
  step c c' -> _num_locks c.2 <= _max_locks -> _num_locks c'.2 <= _max_locks.
Proof.
  intros Hs. destruct Hs as
    [s rest out w w' Hc Hl | s rest out w w' Hc Ha | s rest out w o w' Hp
    | s rest out w e w' Hp | rest out w w' Hr | out w w' Hf]; simpl; intros H.
  - injection Hl as <-. simpl. lia.
  - injection Ha as <-. simpl. lia.
  - destruct (preserves_process_signal s _ _ _ Hp) as (-> & _). lia.
  - destruct (preserves_process_signal s _ _ _ Hp) as (-> & _). lia.
  - injection Hr as <-. simpl. lia.
  - destruct out; injection Hf as <-; simpl; lia.
Qed.

Lemma steps_ceiling c c' :
  rtc step c c' -> _num_locks c.2 <= _max_locks -> _num_locks c'.2 <= _max_locks.
Proof.
  induction 1 as [|c1 c2 c3 H12 _ IH]; [auto|].
  intros H. apply IH. by eapply step_ceiling.
Qed.

(** ** Failures and the count *)

Local Abbreviation delivered :=
  (RTU.delivered signal function_name address value count py_int
     device serial_close).

Lemma delivered_count w k w' :
  delivered w k w' -> _num_locks w' = _num_locks w + Z.of_nat k.
Proof.
  induction 1 as [w | w k w1 b w2 _ IH Hp | w k w1 b e w2 _ IH Hp].
  - simpl. lia.
  - destruct (process_signals_count _ _ _ _ Hp) as (_ & Hl). lia.
  - destruct (process_signals_count _ _ _ _ Hp) as (_ & Hl & _). lia.
Qed.

End Facts.

End RTUFacts.

(** * The TCP loop over a batch *)

Module TCPBatch.
Import TCP Measure.

Section Facts.

Context {signal : Type}.
Variable function_name : FunctionName.
Variable address : signal -> option pyval.
Variable value : signal -> option pyval.
Variable py_int : pyval -> option Z.
Variable device : list io_event -> string -> gmap string pyval -> outcome.

Local Abbreviation f := (FunctionName_value function_name).
Local Abbreviation _execute := (TCP._execute device).
Local Abbreviation _prepare_params := (TCP._prepare_params signal value).
Local Abbreviation loop_body :=
  (TCP.loop_body signal function_name address value py_int device).
Local Abbreviation for_signals :=
  (TCP.for_signals signal function_name address value py_int device).
Local Abbreviation process_signals :=
  (TCP.process_signals signal function_name address value py_int device).

(** Everything one iteration can do: nothing; or, for a signal whose
    address resolves and whose parameters build, one call, or a call, a
    reconnect and a second call; an output signal only after a single
    call.  An iteration that raises has done nothing on the transport. *)
Lemma loop_body_effect s output w r w' :
  loop_body s output w = (r, w') ->
  notified w' = notified w /\
  exists k new,
    io w' = io w ++ k /\
    match r with
    | Ret output' => output' = output ++ new
    | Raise _ => k = [] /\ new = []
    end /\
    (k = [] /\ new = [] \/
     exists a d w0 w1,
       address s ≫= py_int = Some a /\
       _prepare_params f s w0 = (Ret (Some d), w1) /\
       (k = [Call f (<["address" := PyInt a]> d)] /\
        (new = [] \/
         exists attrs,
           new = [{| sig_attrs := attrs;
                     sig_params := <["address" := PyInt a]> d |}]) \/
        k = [Call f (<["address" := PyInt a]> d); Connect;
             Call f (<["address" := PyInt a]> d)] /\ new = [])).
Proof.
  unfold TCP.loop_body.
  destruct (TCPFacts.tcp_address_spec address py_int s w)
    as (w1 & Ha & Hio1 & Hn1 & _).
  destruct (TCPFacts.prepare_params_spec function_name value s w1)
    as (o & w2 & Hp & Hio2 & Hn2 & _).
  unfold bind at 1. rewrite Ha. unfold bind at 1. rewrite Hp.
  destruct o as [d|]; unfold setitem.
  2:{ unfold bind, raise. intros [= <- <-]. split; [congruence|].
      exists [], []. rewrite app_nil_r. split; [congruence|]. auto. }
  unfold bind at 1, ret at 1.
  destruct (address s ≫= py_int) as [a|] eqn:Hres; simpl.
  2:{ unfold ret. intros [= <- <-]. split; [congruence|].
      exists [], []. rewrite !app_nil_r. split; [congruence|]. auto. }
  set (p := <["address" := PyInt a]> d). unfold bind.
  destruct (device (io w2) f p) as [r0|e] eqn:Hd.
  - rewrite (TCPFacts.tcp_execute_returns device f p w2 r0 Hd).
    destruct (resp_truthy r0); intros [= <- <-]; simpl;
      (split; [congruence|]).
    + exists [Call f p], [{| sig_attrs := resp_dict r0; sig_params := p |}].
      split; [congruence|]. split; [reflexivity|]. right.
      exists a, d, w1, w2. eauto 10.
    + exists [Call f p], []. rewrite app_nil_r.
      split; [congruence|]. split; [reflexivity|]. right.
      exists a, d, w1, w2. eauto 10.
  - assert (e = ModbusIOException \/ e <> ModbusIOException) as [->|Hne]
      by (destruct e; auto; right; discriminate).
    + destruct (TCPFacts.execute_io_error device f p w2 Hd)
        as (w3 & -> & Hio3 & Hn3).
      intros [= <- <-]. split; [congruence|].
      exists [Call f p; Connect; Call f p], []. rewrite app_nil_r.
      split; [congruence|]. split; [reflexivity|]. right.
      exists a, d, w1, w2. eauto 10.
    + destruct (TCPFacts.execute_other_error device f p w2 e Hd Hne)
        as (w3 & -> & Hio3 & Hn3).
      intros [= <- <-]. split; [congruence|].
      exists [Call f p], []. rewrite app_nil_r.
      split; [congruence|]. split; [reflexivity|]. right.
      exists a, d, w1, w2. eauto 10.
Qed.

(** The loop over a batch, summed up. *)
Lemma for_signals_effect signals : forall output w r w',
  for_signals signals output w = (r, w') ->
  notified w' = notified w /\
  exists k new,
    io w' = io w ++ k /\
    (forall output', r = Ret output' -> output' = output ++ new) /\
    (tcp_calls k <= 2 * length signals)%nat /\
    (tcp_connects k <= length signals)%nat /\
    (length new <= length signals)%nat /\
    Forall (tcp_expected function_name address py_int signals) k /\
    Forall (fun sg =>
              Call f (sig_params sg) ∈ k /\
              exists s a,
                s ∈ signals /\ address s ≫= py_int = Some a /\
                sig_params sg !! "address" = Some (PyInt a)) new.
Proof.
  induction signals as [|s rest IH]; intros output w r w' H; simpl in H.
  - injection H as <- <-. split; [reflexivity|]. exists [], [].
    rewrite !app_nil_r. repeat split; auto.
    intros output' [= <-]. reflexivity.
  - unfold bind in H.
    destruct (loop_body s output w) as [r1 w1] eqn:E.
    destruct (loop_body_effect _ _ _ _ _ E) as (Hn1 & k1 & new1 & Hio1 & Hr1 & Hs1).
    assert ((tcp_calls k1 <= 2)%nat /\ (tcp_connects k1 <= 1)%nat /\
            (length new1 <= 1)%nat /\
            Forall (tcp_expected function_name address py_int (s :: rest)) k1 /\
            Forall (fun sg =>
                      Call f (sig_params sg) ∈ k1 /\
                      exists s0 a,
                        s0 ∈ s :: rest /\ address s0 ≫= py_int = Some a /\
                        sig_params sg !! "address" = Some (PyInt a)) new1)
      as (Hc1 & Hk1 & Hl1 & He1 & Hg1).
    { destruct Hs1 as [[-> ->] | (a & d & w0 & w0' & Hres & _ & Hcase)].
      - cbn. repeat split; auto; lia.
      - assert (tcp_expected function_name address py_int (s :: rest)
                  (Call f (<["address" := PyInt a]> d))) as Hexp.
        { split; [reflexivity|]. exists s, a. split; [left|].
          split; [assumption|]. apply lookup_insert_eq. }
        assert (exists s0 a0,
                  s0 ∈ s :: rest /\ address s0 ≫= py_int = Some a0 /\
                  (<["address" := PyInt a]> d : gmap string pyval) !! "address"
                    = Some (PyInt a0)) as Hsg.
        { exists s, a. split; [left|]. split; [assumption|].
          apply lookup_insert_eq. }
        destruct Hcase as [[-> Hnew] | [-> ->]].
        + split; [cbn; lia|]. split; [cbn; lia|].
          split; [destruct Hnew as [-> | (attrs & ->)]; cbn; lia|].
          split; [apply Forall_cons_2; [exact Hexp|apply Forall_nil_2]|].
          destruct Hnew as [-> | (attrs & ->)]; [apply Forall_nil_2|].
          apply Forall_cons_2; [|apply Forall_nil_2]. simpl.
          split; [left|exact Hsg].
        + split; [cbn; lia|]. split; [cbn; lia|]. split; [cbn; lia|].
          split; [|apply Forall_nil_2].
          apply Forall_cons_2; [exact Hexp|].
          apply Forall_cons_2; [exact I|].
          apply Forall_cons_2; [exact Hexp|apply Forall_nil_2]. }
    destruct r1 as [o1|e].
    + subst o1.
      destruct (IH _ _ _ _ H) as (Hn2 & k2 & new2 & Hio2 & Hr2 & Hc2 & Hk2 & Hl2 & He2 & Hg2).
      split; [congruence|]. exists (k1 ++ k2), (new1 ++ new2).
      split; [rewrite Hio2, Hio1; by rewrite app_assoc|].
      split; [intros o Ho; rewrite (Hr2 o Ho); by rewrite app_assoc|].
      unfold tcp_calls, tcp_connects in *.
      rewrite !List.filter_app, !length_app. simpl length.
      split; [lia|]. split; [lia|]. split; [lia|].
      split.
      * apply Forall_app. split; [exact He1|].
        eapply Forall_impl; [exact He2|]. intros [f' p'|]; simpl; auto.
        intros (Hf & s0 & a & Hin & Hrest). split; [assumption|].
        exists s0, a. split; [by right|assumption].
      * apply Forall_app. split.
        -- eapply Forall_impl; [exact Hg1|]. intros sg (Hin & Hrest).
           split; [apply elem_of_app; auto|assumption].
        -- eapply Forall_impl; [exact Hg2|].
           intros sg (Hin & s0 & a & Hs0 & Hrest).
           split; [apply elem_of_app; auto|].
           exists s0, a. split; [by right|assumption].
    + injection H as <- <-. destruct Hr1 as [-> ->].
      split; [assumption|]. exists [], []. rewrite Hio1.
      repeat split; auto; cbn; try lia. discriminate.
Qed.

(** The loop distributes over a concatenated batch. *)
Lemma for_signals_app b1 b2 : forall output w,
  for_signals (b1 ++ b2) output w =
    match for_signals b1 output w with
    | (Ret output', w') => for_signals b2 output' w'
    | (Raise e, w') => (Raise e, w')
    end.
Proof.
  induction b1 as [|s rest IH]; intros output w; simpl; [reflexivity|].
  unfold bind. destruct (loop_body s output w) as [[o|e] w1];
    [apply IH | reflexivity].
Qed.




End Facts.

End TCPBatch.

(** * The RTU loop over a batch *)

Module RTUBatch.
Import RTU.

Section Facts.

Context {signal : Type}.
Variable function_name : FunctionName.
Variable address : signal -> option pyval.
Variable value : signal -> option pyval.
Variable count : Z.
Variable py_int : pyval -> option Z.
Variable device : list io_event -> string -> gmap string pyval -> outcome.
Variable serial_close : list io_event -> option exn.

Local Abbreviation _modbus_function := (RTU._modbus_function function_name).
Local Abbreviation _execute := (RTU._execute function_name device).
Local Abbreviation _prepare_params :=
  (RTU._prepare_params signal function_name address value count py_int).
Local Abbreviation execute_with_retry := (RTU.execute_with_retry serial_close).
Local Abbreviation _process_signal :=
  (RTU._process_signal signal function_name address value count py_int
     device serial_close).
Local Abbreviation loop_body :=
  (RTU.loop_body signal function_name address value count py_int
     device serial_close).
Local Abbreviation for_signals :=
  (RTU.for_signals signal function_name address value count py_int
     device serial_close).
Local Abbreviation process_signals :=
  (RTU.process_signals signal function_name address value count py_int
     device serial_close).







End Facts.

End RTUBatch.

(** * The claims of the specification *)

(** ** C1: failures and the rest of the batch *)




(** ** C2: an address that does not resolve *)

(** The TCP half of C2 holds: a signal whose address expression raises, or
    yields something [int] rejects, reaches no transport operation and
    adds no output signal. *)
Lemma tcp_unresolved_address_is_skipped
    (signal : Type) function_name address value py_int device
    (s : signal) output w :
  address s ≫= py_int = None ->
  exists r w',
    TCP.loop_body signal function_name address value py_int device s output w
      = (r, w') /\
    TCP.io w' = TCP.io w /\
    TCP.notified w' = TCP.notified w /\
    (r = Ret output \/ exists msg, r = Raise (TypeError msg)).
Proof. apply TCPFacts.loop_body_unresolved. Qed.

(** C2 on the RTU block.  For an admitted signal whose address does not
    resolve (and whose value builds), [_address] returns [None],
    [_prepare_params] stores it under [registeraddress], and the client
    method is called with these parameters, whatever the instrument. *)
Theorem C2_rtu_calls_with_unresolved_address
    (signal : Type) function_name address value count py_int device
    serial_close (s : signal) w :
  address s ≫= py_int = None ->
  (RTU.is_write function_name = true -> is_Some (value s)) ->
  RTU._num_locks w < RTU._max_locks ->
  exists w' f p,
    RTU.process_signals signal function_name address value count py_int
      device serial_close [s] w = (Ret tt, w') /\
    RTU._modbus_function function_name = Some f /\
    p !! "registeraddress" = Some PyNone /\
    RTU.Call f p ∈ RTU.io w'.
Proof.
  intros Hu Hb Hlt.
  destruct (RTUFacts.rtu_for_signals_builds function_name address value count
              py_int device serial_close [s] [] w)
    as (out & w1 & H & _ & _ & Hc).
  { intros s' Hs'. apply list_elem_of_singleton in Hs' as ->. exact Hb. }
  destruct (Hc Hlt s) as (f & p & Hf & Hreg & Hin); [left|].
  rewrite Hu in Hreg. simpl in Hreg.
  unfold RTU.process_signals, bind. rewrite H.
  destruct out as [|sg out]; eexists _, f, p; (split; [reflexivity|]); auto.
Qed.

(** C2 on the RTU block, at work on a signal whose address expression
    raises. *)
Lemma C2_rtu_calls_with_unresolved_address_witness :
  exists w' f p,
    RTU.process_signals Samples.event RTU.read_input_registers
      Samples.ev_address Samples.ev_value 1 Samples.int_of
      Samples.rtu_up Samples.close_ok [Samples.e_noaddr] RTU.init
      = (Ret tt, w') /\
    RTU._modbus_function RTU.read_input_registers = Some f /\
    p !! "registeraddress" = Some PyNone /\
    RTU.Call f p ∈ RTU.io w'.
Proof.
  apply (C2_rtu_calls_with_unresolved_address Samples.event
           RTU.read_input_registers);
    [reflexivity | discriminate | reflexivity].
Defined.

(** The same run in full, with [read_input_registers], [count = 1] and an
    instrument that answers: one call, with [registeraddress] [None], and
    its answer emitted as an output signal. *)
Lemma rtu_unresolved_address_run :
  let run :=
    RTU.process_signals Samples.event RTU.read_input_registers
      Samples.ev_address Samples.ev_value 1 Samples.int_of
      Samples.rtu_up Samples.close_ok
      [Samples.e_noaddr] RTU.init in
  let params : gmap string pyval :=
    {[ "functioncode" := PyInt 4; "registeraddress" := PyNone;
       "numberOfRegisters" := PyInt 1 ]} in
  run.1 = Ret tt /\
  RTU.io run.2 = [RTU.Call "read_registers" params] /\
  RTU.notified run.2 =
    [[ {| RTU.sig_values := PyList [PyInt 10; PyInt 20];
          RTU.sig_params := params |} ]] /\
  (Warning, "Address needs to evaluate to an integer") ∈ RTU.logs run.2.
Proof.
  vm_compute. repeat split. apply list_elem_of_In. simpl. auto.
Qed.

(** ** C3: one reconnect, one retry *)



(** ** C4: one output signal for a successful call *)




(** ** C5: order of the outputs around a parameter failure (TCP) *)

(** Whenever a write's value expression raises, [_prepare_params] returns
    [None] and the next statement, [params['address'] = address], raises a
    [TypeError] before the [params is None] test is reached. *)
Lemma tcp_unbuilt_params_raise
    (signal : Type) function_name address value py_int device
    (s : signal) rest w :
  TCP.is_write function_name = true ->
  value s = None ->
  exists w',
    TCP.process_signals signal function_name address value py_int device
      (s :: rest) w
    = (Raise (TypeError "'NoneType' object does not support item assignment"),
       w') /\
    TCP.io w' = TCP.io w /\
    TCP.notified w' = TCP.notified w.
Proof.
  intros Hw Hv.
  destruct (TCPFacts.tcp_address_spec address py_int s w) as (w1 & Ha & Hio1 & Hn1 & _).
  destruct (TCPFacts.prepare_params_spec function_name value s w1)
    as (o & w2 & Hp & Hio2 & Hn2 & _ & Ho).
  assert (o = None) as -> by (apply Ho; auto).
  unfold TCP.process_signals. unfold bind at 1. simpl. unfold bind at 1.
  unfold TCP.loop_body. unfold bind at 1. rewrite Ha.
  unfold bind at 1. rewrite Hp. unfold TCP.setitem, bind, raise.
  exists w2. split; [reflexivity|]. split; congruence.
Qed.

(** C5 on the code, with [write_coil], a device that answers, and the
    batch [[e1; e2; e3]] where the value expression raises on [e2]:
    [process_signals] raises a [TypeError] at [e2]; [e3] is never
    processed, and the output collected for [e1] is never emitted. *)
Theorem C5_tcp_batch_is_lost_at_unbuilt_params :
  let run :=
    TCP.process_signals Samples.event TCP.write_single_coil
      Samples.ev_address Samples.ev_value Samples.int_of Samples.tcp_up
      [Samples.e1; Samples.e2; Samples.e3] TCP.init in
  run.1 = Raise (TypeError "'NoneType' object does not support item assignment")
  /\
  TCP.io run.2 =
    [TCP.Call "write_coil" {[ "address" := PyInt 1; "value" := PyBool true ]}]
  /\
  TCP.notified run.2 = [].
Proof. vm_compute. repeat split. Qed.

(** ** C6: the admission ceiling (RTU) *)

(** C6.  The ceiling is five.  A signal that finds the waiting count at
    the ceiling is skipped: the iteration returns the output unchanged and
    the transport history, the emitted batches and the count stay as they
    were.  From a count within the ceiling, every state the loop of
    [process_signals] goes through keeps the count within the ceiling,
    and every run of [process_signals] is such a sequence of steps. *)
Theorem C6_admission_ceiling
    (signal : Type) function_name address value count py_int device
    serial_close (signals : list signal) w :
  RTU._num_locks w <= RTU._max_locks ->
  RTU._max_locks = 5 /\
  (forall s output w0,
     RTU._max_locks <= RTU._num_locks w0 ->
     exists w',
       RTU.loop_body signal function_name address value count py_int device
         serial_close s output w0 = (Ret output, w') /\
       RTU.io w' = RTU.io w0 /\
       RTU.notified w' = RTU.notified w0 /\
       RTU._num_locks w' = RTU._num_locks w0) /\
  (forall c,
     rtc (RTU.step signal function_name address value count py_int device
            serial_close)
       (RTU.LoopHead signal signals [], w) c ->
     RTU._num_locks c.2 <= RTU._max_locks) /\
  (forall r w',
     RTU.process_signals signal function_name address value count py_int
       device serial_close signals w = (r, w') ->
     rtc (RTU.step signal function_name address value count py_int device
            serial_close)
       (RTU.LoopHead signal signals [], w)
       (match r with
        | Ret _ => RTU.Finished signal
        | Raise e => RTU.Propagating signal e
        end, w')).
Proof.
  intros Hw. split; [reflexivity|]. split; [|split].
  - intros s output w0 Hc. by apply RTUFacts.loop_body_skips.
  - intros c Hs.
    apply (RTUFacts.steps_ceiling function_name address value count py_int
             device serial_close _ _ Hs Hw).
  - intros r w' H. by apply RTUFacts.process_signals_steps.
Qed.

(** C6 at work: from the initial state, a batch with a failing write in
    the middle ends with the count within the ceiling. *)
Lemma C6_admission_ceiling_witness :
  RTU._num_locks
    (RTU.process_signals Samples.event RTU.write_single_coil
       Samples.ev_address Samples.ev_value 1 Samples.int_of
       Samples.rtu_none Samples.close_ok
       [Samples.e1; Samples.e2; Samples.e3] RTU.init).2 <= RTU._max_locks.
Proof.
  destruct (C6_admission_ceiling Samples.event RTU.write_single_coil
              Samples.ev_address Samples.ev_value 1 Samples.int_of
              Samples.rtu_none Samples.close_ok
              [Samples.e1; Samples.e2; Samples.e3] RTU.init)
    as (_ & _ & Hinv & Hsteps).
  { unfold RTU._max_locks. simpl. lia. }
  destruct (RTU.process_signals _ _ _ _ _ _ _ _ _ _) as [r w'].
  exact (Hinv (_, w') (Hsteps r w' eq_refl)).
Defined.

(** ** C7: the retried call's result (TCP) *)

(** C7.  The first attempt raises [ModbusIOException] and the attempt
    after the reconnect returns a truthy response: [_execute] still
    returns [None], so the signal contributes no output signal and no
    batch is emitted for it, although its second call succeeded. *)
Theorem C7_retried_result_is_discarded
    (signal : Type) function_name address value py_int device
    (s : signal) w a w1 d w2 r :
  TCP._address signal address py_int s w = (Ret (Some a), w1) ->
  TCP._prepare_params signal value (TCP.FunctionName_value function_name)
    s w1 = (Ret (Some d), w2) ->
  device (TCP.io w2) (TCP.FunctionName_value function_name)
    (<["address" := PyInt a]> d) = TCP.Raises ModbusIOException ->
  device (TCP.io w2 ++
            [TCP.Call (TCP.FunctionName_value function_name)
               (<["address" := PyInt a]> d); TCP.Connect])
    (TCP.FunctionName_value function_name) (<["address" := PyInt a]> d)
    = TCP.Returns r ->
  TCP.resp_truthy r = true ->
  (exists w3,
     TCP._execute device (TCP.FunctionName_value function_name)
       (<["address" := PyInt a]> d) false w2 = (Ret None, w3)) /\
  exists w',
    TCP.process_signals signal function_name address value py_int device
      [s] w = (Ret tt, w') /\
    TCP.io w' = TCP.io w2 ++
      [TCP.Call (TCP.FunctionName_value function_name)
         (<["address" := PyInt a]> d);
       TCP.Connect;
       TCP.Call (TCP.FunctionName_value function_name)
         (<["address" := PyInt a]> d)] /\
    TCP.notified w' = TCP.notified w2.
Proof.
  intros Ha Hp Hd1 Hd2 Ht.
  destruct (TCPFacts.execute_io_error device _ _ w2 Hd1) as (w3 & He & Hio & Hn).
  split; [eauto|].
  unfold TCP.process_signals. unfold bind at 1. simpl. unfold bind at 1.
  unfold TCP.loop_body. unfold bind at 1. rewrite Ha.
  unfold bind at 1. rewrite Hp. unfold TCP.setitem.
  unfold bind at 1, ret at 1. simpl. unfold bind at 1. rewrite He.
  exists w3. split; [reflexivity|]. auto.
Qed.

(** C7 at work: a device that answers only after the reconnect. *)
Lemma C7_retried_result_is_discarded_witness :
  exists w',
    TCP.process_signals Samples.event TCP.write_single_coil
      Samples.ev_address Samples.ev_value Samples.int_of
      Samples.tcp_up_after_reconnect [Samples.e1] TCP.init = (Ret tt, w') /\
    TCP.io w' =
      [TCP.Call "write_coil" {[ "address" := PyInt 1; "value" := PyBool true ]};
       TCP.Connect;
       TCP.Call "write_coil" {[ "address" := PyInt 1; "value" := PyBool true ]}]
    /\
    TCP.notified w' = [].
Proof.
  destruct (C7_retried_result_is_discarded Samples.event TCP.write_single_coil
              Samples.ev_address Samples.ev_value Samples.int_of
              Samples.tcp_up_after_reconnect Samples.e1 TCP.init 1 TCP.init
              {["value" := PyBool true]} TCP.init Samples.tcp_reply)
    as (_ & w' & H & Hio & Hn); [reflexivity..|].
  exists w'. split; [exact H|]. rewrite Hio, Hn. split; reflexivity.
Defined.

(** ** C8: the key of a multiple write *)

(** C8, as stated, fails on the RTU block.  [write_multiple_coils]
    (code 15) goes to the client method [write_bit], whose keyword for
    the value is [value]; [_prepare_params] stores the value under that
    key, and the dict it builds has no [values] key. *)
Lemma C8_rtu_multiple_write_has_no_values_key :
  exists w',
    RTU._prepare_params Samples.event RTU.write_multiple_coils
      Samples.ev_address Samples.ev_value 1 Samples.int_of
      Samples.e_seq RTU.init
    = (Ret {[ "functioncode" := PyInt 15; "registeraddress" := PyInt 7;
              "value" := PyList [PyBool true; PyBool false] ]}, w') /\
    ({[ "functioncode" := PyInt 15; "registeraddress" := PyInt 7;
        "value" := PyList [PyBool true; PyBool false] ]}
       : gmap string pyval) !! "values" = None.
Proof. eexists. split; vm_compute; reflexivity. Qed.

(** C8, amended: for a multiple write, the TCP block stores what the value
    expression evaluates to under [values] (and adding the address leaves
    it there); on the RTU block, [write_multiple_coils], which is sent
    through [write_bit], stores it under [value] and builds no [values]
    entry. *)
Theorem C8_key_of_a_multiple_write :
  (forall (signal : Type) function_name value (s : signal) v w,
     function_name = TCP.write_multiple_coils \/
     function_name = TCP.write_multiple_holding_registers ->
     value s = Some v ->
     exists d,
       TCP._prepare_params signal value
         (TCP.FunctionName_value function_name) s w = (Ret (Some d), w) /\
       d !! "values" = Some v /\
       d !! "value" = None /\
       forall a, (<["address" := a]> d) !! "values" = Some v) /\
  (forall (signal : Type) address value count py_int (s : signal) v w,
     value s = Some v ->
     RTU._modbus_function RTU.write_multiple_coils = Some "write_bit" /\
     exists p w',
       RTU._prepare_params signal RTU.write_multiple_coils address value
         count py_int s w = (Ret p, w') /\
       p !! "value" = Some v /\
       p !! "values" = None).
Proof.
  split.
  - intros signal fn value s v w Hfn Hv. exists {["values" := v]}.
    unfold TCP._prepare_params.
    destruct Hfn as [-> | ->]; simpl; rewrite Hv;
      (split; [reflexivity|]); repeat split; intros; by simplify_map_eq.
  - intros signal address value count py_int s v w Hv.
    split; [reflexivity|].
    destruct (RTUFacts.prepare_params_eq RTU.write_multiple_coils address
                value count py_int s w) as (w' & _ & _ & _ & H).
    rewrite H, Hv. cbv zeta. simpl.
    eexists _, w'. split; [reflexivity|]. split; by simplify_map_eq.
Qed.

(** C8 amended, at work on a signal that writes a sequence. *)
Lemma C8_key_of_a_multiple_write_witness :
  (exists d,
     TCP._prepare_params Samples.event Samples.ev_value "write_registers"
       Samples.e_seq TCP.init = (Ret (Some d), TCP.init) /\
     d !! "values" = Some (PyList [PyBool true; PyBool false])) /\
  (exists p w',
     RTU._prepare_params Samples.event RTU.write_multiple_coils
       Samples.ev_address Samples.ev_value 1 Samples.int_of
       Samples.e_seq RTU.init = (Ret p, w') /\
     p !! "value" = Some (PyList [PyBool true; PyBool false]) /\
     p !! "values" = None).
Proof.
  destruct C8_key_of_a_multiple_write as (Htcp & Hrtu). split.
  - destruct (Htcp Samples.event TCP.write_multiple_holding_registers
                Samples.ev_value Samples.e_seq
                (PyList [PyBool true; PyBool false]) TCP.init)
      as (d & H & Hd & _); [right; reflexivity | reflexivity |].
    exists d. split; [exact H | exact Hd].
  - apply (Hrtu Samples.event Samples.ev_address Samples.ev_value 1
             Samples.int_of Samples.e_seq). reflexivity.
Defined.

(** ** C9: the parameters of a read (RTU) *)

(** C9, as stated, fails for the coil reads: only the codes 3 and 4 get
    [numberOfRegisters]; the dict built for [read_coils] holds the
    function code and the register address and no count. *)
Lemma C9_rtu_read_coils_has_no_count :
  exists w',
    RTU._prepare_params Samples.event RTU.read_coils
      Samples.ev_address Samples.ev_value 3 Samples.int_of
      Samples.e1 RTU.init
    = (Ret {[ "functioncode" := PyInt 1; "registeraddress" := PyInt 1 ]}, w')
    /\
    ({[ "functioncode" := PyInt 1; "registeraddress" := PyInt 1 ]}
       : gmap string pyval) !! "numberOfRegisters" = None.
Proof. eexists. split; vm_compute; reflexivity. Qed.

(** C9, amended: for every read operation the built dict holds no value
    parameter; for the register reads (holding, input) it holds the
    configured count under [numberOfRegisters], for the bit reads (coils,
    discrete inputs) it holds no count. *)
Theorem C9_parameters_of_a_read
    (signal : Type) function_name address value count py_int (s : signal) w :
  RTU.is_write function_name = false ->
  exists p w',
    RTU._prepare_params signal function_name address value count py_int s w
      = (Ret p, w') /\
    p !! "value" = None /\
    p !! "values" = None /\
    p !! "numberOfRegisters" =
      match function_name with
      | RTU.read_holding_registers | RTU.read_input_registers =>
          Some (PyInt count)
      | _ => None
      end.
Proof.
  intros Hr.
  destruct (RTUFacts.prepare_params_eq function_name address value count
              py_int s w) as (w' & _ & _ & _ & H).
  rewrite H.
  destruct function_name; try discriminate; cbv zeta; simpl;
    eexists _, w'; (split; [reflexivity|]); repeat split; by simplify_map_eq.
Qed.

(** C9 amended, at work on a read of four holding registers. *)
Lemma C9_parameters_of_a_read_witness :
  exists p w',
    RTU._prepare_params Samples.event RTU.read_holding_registers
      Samples.ev_address Samples.ev_value 4 Samples.int_of Samples.e1 RTU.init
      = (Ret p, w') /\
    p !! "value" = None /\
    p !! "values" = None /\
    p !! "numberOfRegisters" = Some (PyInt 4).
Proof.
  apply (C9_parameters_of_a_read Samples.event RTU.read_holding_registers).
  reflexivity.
Defined.

(** ** C10: the count after an exception (RTU) *)

(** C10.  For an admitted signal the count is raised by one before
    [_process_signal] runs.  If [_process_signal] returns, the iteration
    lowers the count again; if it raises, as it does when a write's value
    expression raises, the exception leaves [process_signals] with the
    count still raised.  Over successive batches the count is the number
    of batches that raised, and once five have, every signal of every
    later batch is skipped: no call, no output. *)
Theorem C10_failures_consume_admission_slots
    (signal : Type) function_name address value count py_int device
    serial_close :
  (forall (s : signal) output w o w1,
     RTU._num_locks w < RTU._max_locks ->
     RTU._process_signal signal function_name address value count py_int
       device serial_close s (RTU.add_num_locks 1 w).2 = (Ret o, w1) ->
     exists output' w',
       RTU.loop_body signal function_name address value count py_int device
         serial_close s output w = (Ret output', w') /\
       RTU._num_locks w' = RTU._num_locks w) /\
  (forall (s : signal) rest output w e w1,
     RTU._num_locks w < RTU._max_locks ->
     RTU._process_signal signal function_name address value count py_int
       device serial_close s (RTU.add_num_locks 1 w).2 = (Raise e, w1) ->
     RTU.for_signals signal function_name address value count py_int device
       serial_close (s :: rest) output w = (Raise e, w1) /\
     RTU._num_locks w1 = RTU._num_locks w + 1) /\
  (forall (s : signal) rest w,
     RTU._num_locks w < RTU._max_locks ->
     RTU.is_write function_name = true ->
     value s = None ->
     exists e w',
       RTU.process_signals signal function_name address value count py_int
         device serial_close (s :: rest) w = (Raise e, w') /\
       RTU._num_locks w' = RTU._num_locks w + 1) /\
  (forall w0 k w,
     RTU.delivered signal function_name address value count py_int device
       serial_close w0 k w ->
     RTU._num_locks w = RTU._num_locks w0 + Z.of_nat k) /\
  (forall w0 w,
     RTU._num_locks w0 = 0 ->
     RTU.delivered signal function_name address value count py_int device
       serial_close w0 5 w ->
     forall signals,
       exists w',
         RTU.process_signals signal function_name address value count py_int
           device serial_close signals w = (Ret tt, w') /\
         RTU.io w' = RTU.io w /\
         RTU.notified w' = RTU.notified w /\
         RTU._num_locks w' = RTU._num_locks w).
Proof.
  split; [|split; [|split; [|split]]].
  - intros s output w o w1 Hlt Hp.
    rewrite RTUFacts.loop_body_admits by assumption. rewrite Hp.
    eexists _, _. split; [reflexivity|].
    destruct (RTUFacts.preserves_process_signal function_name address value
                count py_int device serial_close s _ _ _ Hp) as (Hl & _).
    simpl in *. lia.
  - intros s rest output w e w1 Hlt Hp. simpl. unfold bind.
    rewrite RTUFacts.loop_body_admits by assumption. rewrite Hp.
    split; [reflexivity|].
    destruct (RTUFacts.preserves_process_signal function_name address value
                count py_int device serial_close s _ _ _ Hp) as (Hl & _).
    simpl in *. lia.
  - intros s rest w Hlt Hw Hv.
    destruct (RTUFacts.prepare_params_raises function_name address value
                count py_int s (RTU.add_num_locks 1 w).2 Hw Hv)
      as (w1 & Hp & _ & _ & Hl).
    unfold RTU.process_signals. unfold bind at 1. simpl. unfold bind at 1.
    rewrite RTUFacts.loop_body_admits by assumption.
    unfold RTU._process_signal. unfold bind at 1. rewrite Hp.
    eexists _, w1. split; [reflexivity|]. simpl in Hl. lia.
  - intros w0 k w Hd. by eapply RTUFacts.delivered_count.
  - intros w0 w H0 Hd signals.
    apply RTUFacts.process_signals_shed.
    rewrite (RTUFacts.delivered_count _ _ _ _ _ _ _ _ _ _ Hd), H0.
    unfold RTU._max_locks. simpl. lia.
Qed.

(** C10 at work: five batches, each headed by a write whose value
    expression raises, bring the count from 0 to 5; after them every
    batch is shed. *)
Lemma C10_failures_consume_admission_slots_witness :
  exists w,
    RTU.delivered Samples.event RTU.write_single_coil Samples.ev_address
      Samples.ev_value 1 Samples.int_of Samples.rtu_up Samples.close_ok
      RTU.init 5 w /\
    RTU._num_locks w = 5 /\
    forall signals,
      exists w',
        RTU.process_signals Samples.event RTU.write_single_coil
          Samples.ev_address Samples.ev_value 1 Samples.int_of
          Samples.rtu_up Samples.close_ok signals w = (Ret tt, w') /\
        RTU.io w' = RTU.io w /\
        RTU.notified w' = RTU.notified w /\
        RTU._num_locks w' = RTU._num_locks w.
Proof.
  destruct (C10_failures_consume_admission_slots Samples.event
              RTU.write_single_coil Samples.ev_address Samples.ev_value 1
              Samples.int_of Samples.rtu_up Samples.close_ok)
    as (_ & _ & Hraise & Hcount & Hshed).
  assert (RTU._num_locks RTU.init = 0) as L0 by reflexivity.
  unfold RTU._max_locks in Hraise.
  destruct (Hraise Samples.e2 [Samples.e1] RTU.init)
    as (x1 & w1 & H1 & L1); [lia | reflexivity | reflexivity |].
  destruct (Hraise Samples.e2 [] w1)
    as (x2 & w2 & H2 & L2); [lia | reflexivity | reflexivity |].
  destruct (Hraise Samples.e2 [Samples.e3] w2)
    as (x3 & w3 & H3 & L3); [lia | reflexivity | reflexivity |].
  destruct (Hraise Samples.e2 [] w3)
    as (x4 & w4 & H4 & L4); [lia | reflexivity | reflexivity |].
  destruct (Hraise Samples.e2 [] w4)
    as (x5 & w5 & H5 & L5); [lia | reflexivity | reflexivity |].
  assert (RTU.delivered Samples.event RTU.write_single_coil Samples.ev_address
            Samples.ev_value 1 Samples.int_of Samples.rtu_up Samples.close_ok
            RTU.init 5 w5) as Hd.
  { eapply RTU.delivered_raised; [|exact H5].
    eapply RTU.delivered_raised; [|exact H4].
    eapply RTU.delivered_raised; [|exact H3].
    eapply RTU.delivered_raised; [|exact H2].
    eapply RTU.delivered_raised; [|exact H1].
    apply RTU.delivered_none. }
  exists w5. split; [exact Hd|]. split; [lia|].
  exact (Hshed RTU.init w5 L0 Hd).
Defined.


(** One call of the TCP [process_signals] emits at most one batch, never
    an empty one and never one longer than the input; a call that raises
    emits nothing. *)
Theorem tcp_emits_at_most_one_batch
    (signal : Type) function_name address value py_int device
    (signals : list signal) w :
  let run :=
    TCP.process_signals signal function_name address value py_int device
      signals w in
  match run.1 with
  | Raise _ => TCP.notified run.2 = TCP.notified w
  | Ret _ =>
      TCP.notified run.2 = TCP.notified w \/
      exists batch,
        TCP.notified run.2 = TCP.notified w ++ [batch] /\
        batch <> [] /\
        (length batch <= length signals)%nat
  end.
Proof.
  cbv zeta. unfold TCP.process_signals, bind.
  destruct (TCP.for_signals _ _ _ _ _ _ signals [] w) as [[out|e] w1] eqn:E;
    destruct (TCPBatch.for_signals_effect _ _ _ _ _ _ _ _ _ _ E)
      as (Hn & k & new & _ & Hr & _ & _ & Hl & _); simpl; [|assumption].
  rewrite (Hr out eq_refl) in *. simpl in *.
  destruct new as [|sg new]; simpl; [left; assumption|].
  right. exists (sg :: new). rewrite Hn. auto.
Qed.

(** Every signal the TCP block emits carries, as its [params], the
    parameters of a call made while processing the same batch, and its
    [address] entry is the integer the address expression of one of the
    batch's signals resolved to. *)
Theorem tcp_emitted_signals_carry_their_call
    (signal : Type) function_name address value py_int device
    (signals : list signal) w w' batch :
  TCP.process_signals signal function_name address value py_int device
    signals w = (Ret tt, w') ->
  TCP.notified w' = TCP.notified w ++ [batch] ->
  Forall (fun sg =>
            (exists k,
               TCP.io w' = TCP.io w ++ k /\
               TCP.Call (TCP.FunctionName_value function_name)
                 (TCP.sig_params sg) ∈ k) /\
            exists s a,
              s ∈ signals /\ address s ≫= py_int = Some a /\
              TCP.sig_params sg !! "address" = Some (PyInt a)) batch.
Proof.
  unfold TCP.process_signals, bind.
  destruct (TCP.for_signals _ _ _ _ _ _ signals [] w) as [[out|e] w1] eqn:E;
    [|discriminate].
  destruct (TCPBatch.for_signals_effect _ _ _ _ _ _ _ _ _ _ E)
    as (Hn & k & new & Hio & Hr & _ & _ & _ & _ & Hg).
  rewrite (Hr out eq_refl). simpl.
  destruct new as [|sg new]; intros [= <-]; simpl; rewrite Hn; intros Hb.
  - exfalso. apply (f_equal length) in Hb. rewrite length_app in Hb.
    simpl in Hb. lia.
  - apply app_inv_head in Hb. injection Hb as <-.
    eapply Forall_impl; [exact Hg|]. intros sg' (Hin & Hrest).
    split; [exists k; auto|exact Hrest].
Qed.

Lemma tcp_emitted_signals_carry_their_call_witness :
  Forall (fun sg =>
            (exists k,
               TCP.io (TCP.process_signals Samples.event TCP.write_single_coil
                         Samples.ev_address Samples.ev_value Samples.int_of
                         Samples.tcp_up [Samples.e1; Samples.e3] TCP.init).2
               = TCP.io TCP.init ++ k /\
               TCP.Call "write_coil" (TCP.sig_params sg) ∈ k) /\
            exists s a,
              s ∈ [Samples.e1; Samples.e3] /\
              Samples.ev_address s ≫= Samples.int_of = Some a /\
              TCP.sig_params sg !! "address" = Some (PyInt a))
    [ {| TCP.sig_attrs := TCP.resp_dict Samples.tcp_reply;
         TCP.sig_params := {[ "address" := PyInt 1; "value" := PyBool true ]} |};
      {| TCP.sig_attrs := TCP.resp_dict Samples.tcp_reply;
         TCP.sig_params := {[ "address" := PyInt 3; "value" := PyBool false ]} |} ].
Proof.
  apply (tcp_emitted_signals_carry_their_call Samples.event
           TCP.write_single_coil Samples.ev_address Samples.ev_value
           Samples.int_of Samples.tcp_up [Samples.e1; Samples.e3] TCP.init);
    vm_compute; reflexivity.
Defined.

(** A TCP batch of [n] signals causes at most [2 n] client calls and at
    most [n] reconnects, and only extends the transport history; every
    call is of the configured function, at an integer address that one of
    the batch's signals resolved to. *)
Theorem tcp_transport_budget
    (signal : Type) function_name address value py_int device
    (signals : list signal) w :
  exists k,
    TCP.io (TCP.process_signals signal function_name address value py_int
              device signals w).2 = TCP.io w ++ k /\
    (Measure.tcp_calls k <= 2 * length signals)%nat /\
    (Measure.tcp_connects k <= length signals)%nat /\
    Forall (Measure.tcp_expected function_name address py_int signals) k.
Proof.
  unfold TCP.process_signals, bind.
  destruct (TCP.for_signals _ _ _ _ _ _ signals [] w) as [r w1] eqn:E.
  destruct (TCPBatch.for_signals_effect _ _ _ _ _ _ _ _ _ _ E)
    as (_ & k & new & Hio & _ & Hc & Hk & _ & He & _).
  exists k. destruct r as [[|sg out]|e]; simpl; auto.
Qed.

(** With a read function the TCP block never evaluates the value
    expression: [process_signals] does the same whatever that expression
    is, and never raises. *)
Theorem tcp_reads_ignore_the_value_expression
    (signal : Type) function_name address value value' py_int device
    (signals : list signal) w :
  TCP.is_write function_name = false ->
  TCP.process_signals signal function_name address value py_int device
    signals w
  = TCP.process_signals signal function_name address value' py_int device
      signals w /\
  (TCP.process_signals signal function_name address value py_int device
     signals w).1 = Ret tt.
Proof.
  intros Hr. split.
  - assert (forall s output w0,
              TCP.loop_body signal function_name address value py_int device
                s output w0
              = TCP.loop_body signal function_name address value' py_int
                  device s output w0) as Hbody.
    { intros s output w0. unfold TCP.loop_body, TCP._prepare_params.
      destruct function_name; try discriminate; reflexivity. }
    assert (forall output w0,
              TCP.for_signals signal function_name address value py_int
                device signals output w0
              = TCP.for_signals signal function_name address value' py_int
                  device signals output w0) as Hloop.
    { induction signals as [|s rest IH]; intros output w0; [reflexivity|].
      simpl. unfold bind. rewrite Hbody.
      destruct (TCP.loop_body _ _ _ _ _ _ s output w0) as [[o|e] w1];
        [apply IH | reflexivity]. }
    unfold TCP.process_signals, bind. by rewrite Hloop.
  - destruct (TCPFacts.tcp_for_signals_builds function_name address value
                py_int device signals [] w) as (out & w1 & H & _).
    { intros s _ Hw. congruence. }
    unfold TCP.process_signals, bind. rewrite H. by destruct out.
Qed.

Lemma tcp_reads_ignore_the_value_expression_witness :
  TCP.process_signals Samples.event TCP.read_coils Samples.ev_address
    Samples.ev_value Samples.int_of Samples.tcp_up
    [Samples.e1; Samples.e2] TCP.init
  = TCP.process_signals Samples.event TCP.read_coils Samples.ev_address
      (fun _ => None) Samples.int_of Samples.tcp_up
      [Samples.e1; Samples.e2] TCP.init /\
  (TCP.process_signals Samples.event TCP.read_coils Samples.ev_address
     Samples.ev_value Samples.int_of Samples.tcp_up
     [Samples.e1; Samples.e2] TCP.init).1 = Ret tt.
Proof.
  apply (tcp_reads_ignore_the_value_expression Samples.event TCP.read_coils).
  reflexivity.
Defined.

(** In a TCP write batch, a value expression that raises on any signal
    loses the whole batch: the signals before it are processed and their
    calls made, then [process_signals] raises a [TypeError]; nothing is
    emitted, not even their outputs, and nothing behind the failing
    signal reaches the transport. *)
Theorem tcp_value_failure_loses_the_batch
    (signal : Type) function_name address value py_int device
    (before : list signal) s after w :
  TCP.is_write function_name = true ->
  (forall s0, s0 ∈ before -> is_Some (value s0)) ->
  value s = None ->
  exists output w1 w',
    TCP.for_signals signal function_name address value py_int device
      before [] w = (Ret output, w1) /\
    TCP.process_signals signal function_name address value py_int device
      (before ++ s :: after) w
    = (Raise (TypeError "'NoneType' object does not support item assignment"),
       w') /\
    TCP.io w' = TCP.io w1 /\
    TCP.notified w' = TCP.notified w.
Proof.
  intros Hw Hb Hv.
  destruct (TCPFacts.tcp_for_signals_builds function_name address value py_int
              device before [] w) as (out & w1 & H & _ & Hn & _).
  { intros s0 Hs0 _. by apply Hb. }
  destruct (TCPFacts.tcp_address_spec address py_int s w1)
    as (w2 & Ha & Hio2 & Hn2 & _).
  destruct (TCPFacts.prepare_params_spec function_name value s w2)
    as (o & w3 & Hp & Hio3 & Hn3 & _ & Ho).
  assert (o = None) as -> by (apply Ho; auto).
  exists out, w1, w3. split; [exact H|].
  unfold TCP.process_signals. unfold bind at 1.
  rewrite TCPBatch.for_signals_app, H. simpl. unfold bind at 1.
  unfold TCP.loop_body. unfold bind at 1. rewrite Ha.
  unfold bind at 1. rewrite Hp. unfold TCP.setitem, bind, raise.
  split; [reflexivity|]. split; congruence.
Qed.

Lemma tcp_value_failure_loses_the_batch_witness :
  exists output w1 w',
    TCP.for_signals Samples.event TCP.write_single_coil Samples.ev_address
      Samples.ev_value Samples.int_of Samples.tcp_up
      [Samples.e1; Samples.e3] [] TCP.init = (Ret output, w1) /\
    TCP.process_signals Samples.event TCP.write_single_coil Samples.ev_address
      Samples.ev_value Samples.int_of Samples.tcp_up
      ([Samples.e1; Samples.e3] ++ Samples.e2 :: [Samples.e_seq]) TCP.init
    = (Raise (TypeError "'NoneType' object does not support item assignment"),
       w') /\
    TCP.io w' = TCP.io w1 /\
    TCP.notified w' = TCP.notified TCP.init.
Proof.
  apply (tcp_value_failure_loses_the_batch Samples.event
           TCP.write_single_coil Samples.ev_address Samples.ev_value
           Samples.int_of Samples.tcp_up [Samples.e1; Samples.e3]
           Samples.e2 [Samples.e_seq] TCP.init);
    [reflexivity | | reflexivity].
  intros s0 Hs0.
  apply elem_of_cons in Hs0 as [->|Hs0]; [simpl; eauto|].
  apply list_elem_of_singleton in Hs0 as ->. simpl; eauto.
Defined.

(** A TCP call that returns a falsy result is neither an output nor a
    failure: one call, no retry, no reconnect, nothing logged, nothing
    emitted. *)
Theorem tcp_falsy_result_is_dropped_silently
    (signal : Type) function_name address value py_int device
    (s : signal) w a w1 d w2 r :
  TCP._address signal address py_int s w = (Ret (Some a), w1) ->
  TCP._prepare_params signal value (TCP.FunctionName_value function_name)
    s w1 = (Ret (Some d), w2) ->
  device (TCP.io w2) (TCP.FunctionName_value function_name)
    (<["address" := PyInt a]> d) = TCP.Returns r ->
  TCP.resp_truthy r = false ->
  exists w',
    TCP.process_signals signal function_name address value py_int device
      [s] w = (Ret tt, w') /\
    TCP.io w' = TCP.io w2 ++
      [TCP.Call (TCP.FunctionName_value function_name)
         (<["address" := PyInt a]> d)] /\
    TCP.logs w' = TCP.logs w2 /\
    TCP.notified w' = TCP.notified w2.
Proof.
  intros Ha Hp Hd Ht.
  unfold TCP.process_signals. unfold bind at 1. simpl. unfold bind at 1.
  unfold TCP.loop_body. unfold bind at 1. rewrite Ha.
  unfold bind at 1. rewrite Hp. unfold TCP.setitem.
  unfold bind at 1, ret at 1. simpl. unfold bind at 1.
  rewrite (TCPFacts.tcp_execute_returns device _ _ w2 r Hd), Ht.
  eexists. split; [reflexivity|]. simpl. auto.
Qed.

Lemma tcp_falsy_result_is_dropped_silently_witness :
  exists w',
    TCP.process_signals Samples.event TCP.read_coils Samples.ev_address
      Samples.ev_value Samples.int_of Samples.tcp_empty
      [Samples.e1] TCP.init = (Ret tt, w') /\
    TCP.io w' = [TCP.Call "read_coils" {[ "address" := PyInt 1 ]}] /\
    TCP.logs w' = [] /\
    TCP.notified w' = [].
Proof.
  destruct (tcp_falsy_result_is_dropped_silently Samples.event TCP.read_coils
              Samples.ev_address Samples.ev_value Samples.int_of
              Samples.tcp_empty Samples.e1 TCP.init 1 TCP.init ∅ TCP.init
              {| TCP.resp_dict := ∅; TCP.resp_truthy := false |})
    as (w' & H & Hio & Hl & Hn); [reflexivity..|].
  exists w'. split; [exact H|]. rewrite Hio, Hl, Hn. repeat split.
Defined.

(** What the TCP [_execute] logs: nothing when the first attempt returns;
    one error entry for an attempt that raises anything but
    [ModbusIOException]; the reconnect notice when the first attempt
    raises [ModbusIOException], followed by whatever the second attempt
    earns: nothing, the give-up entry, or the plain failure entry. *)
Theorem tcp_execute_logging device f p w :
  TCP.logs (TCP._execute device f p false w).2 =
    TCP.logs w ++
    match device (TCP.io w) f p with
    | TCP.Returns _ => []
    | TCP.Raises ModbusIOException =>
        (Error, "Failed to execute Modbus function. Reconnecting and retyring one time.")
        :: match device (TCP.io w ++ [TCP.Call f p; TCP.Connect]) f p with
           | TCP.Returns _ => []
           | TCP.Raises ModbusIOException =>
               [(Error, "Failed to execute Modbus function. Return failed.")]
           | TCP.Raises _ => [(Error, "Failed to execute Modbus function")]
           end
    | TCP.Raises _ => [(Error, "Failed to execute Modbus function")]
    end.
Proof.
  unfold TCP._execute, TCP._execute_body. TCPFacts.run.
  destruct (device (TCP.io w) f p) as [r|[]]; simpl;
    try destruct (TCP.resp_truthy r); simpl; rewrite ?app_nil_r; try reflexivity.
  rewrite <- (app_assoc (TCP.io w)). simpl.
  destruct (device _ f p) as [r|[]]; simpl;
    try destruct (TCP.resp_truthy r); simpl; rewrite <- ?app_assoc;
    reflexivity.
Qed.

(** A retried attempt is final: with [retry=True] the TCP [_execute]
    makes its one call and returns, whatever the call does; it never
    reconnects and never raises. *)
Theorem tcp_retried_attempt_is_final device f p w :
  exists o w',
    TCP._execute device f p true w = (Ret o, w') /\
    TCP.io w' = TCP.io w ++ [TCP.Call f p] /\
    TCP.notified w' = TCP.notified w.
Proof.
  unfold TCP._execute, TCP._execute_body. TCPFacts.run.
  destruct (device (TCP.io w) f p) as [r|[]]; simpl;
    try destruct (TCP.resp_truthy r); simpl;
    eexists _, _; (split; [reflexivity|]); simpl; auto.
Qed.

(** The parameters the TCP block calls the client with, by kind of
    function: the integer address alone for a read, the address and
    [value] for a single write, the address and [values] for a multiple
    write. *)
Theorem tcp_call_parameters_by_kind
    (signal : Type) function_name address value py_int device
    (s : signal) w a v :
  address s ≫= py_int = Some a ->
  value s = Some v ->
  exists k,
    TCP.io (TCP.process_signals signal function_name address value py_int
              device [s] w).2
    = TCP.io w ++
      TCP.Call (TCP.FunctionName_value function_name)
        match function_name with
        | TCP.write_single_coil | TCP.write_single_holding_register =>
            {[ "address" := PyInt a; "value" := v ]}
        | TCP.write_multiple_coils | TCP.write_multiple_holding_registers =>
            {[ "address" := PyInt a; "values" := v ]}
        | _ => {[ "address" := PyInt a ]}
        end :: k.
Proof.
  intros Ha Hv.
  destruct (TCPFacts.tcp_address_spec address py_int s w)
    as (w1 & Haddr & _ & _ & Hsame).
  rewrite Ha in Haddr, Hsame. rewrite (Hsame (mk_is_Some _ _ eq_refl)) in Haddr.
  assert (forall d,
            TCP._prepare_params signal value
              (TCP.FunctionName_value function_name) s w = (Ret (Some d), w) ->
            exists k,
              TCP.io (TCP.process_signals signal function_name address value
                        py_int device [s] w).2
              = TCP.io w ++
                TCP.Call (TCP.FunctionName_value function_name)
                  (<["address" := PyInt a]> d) :: k) as Hgo.
  { intros d Hp.
    destruct (TCPFacts.execute_total device
                (TCP.FunctionName_value function_name)
                (<["address" := PyInt a]> d) w) as (o & w2 & He & _ & Hio).
    unfold TCP.process_signals. unfold bind at 1. simpl. unfold bind at 1.
    unfold TCP.loop_body. unfold bind at 1. rewrite Haddr.
    unfold bind at 1. rewrite Hp. unfold TCP.setitem.
    unfold bind at 1, ret at 1. simpl. unfold bind at 1. rewrite He.
    destruct Hio as [Hio|Hio]; destruct o as [sg|]; simpl; rewrite Hio;
      eexists; reflexivity. }
  destruct function_name; simpl;
    try (rewrite <- insert_empty; apply Hgo; reflexivity);
    apply Hgo; unfold TCP._prepare_params; simpl; by rewrite Hv.
Qed.

Lemma tcp_call_parameters_by_kind_witness :
  exists k,
    TCP.io (TCP.process_signals Samples.event TCP.write_multiple_coils
              Samples.ev_address Samples.ev_value Samples.int_of
              Samples.tcp_down [Samples.e_seq] TCP.init).2
    = TCP.io TCP.init ++
      TCP.Call "write_coils"
        {[ "address" := PyInt 7;
           "values" := PyList [PyBool true; PyBool false] ]} :: k.
Proof.
  apply (tcp_call_parameters_by_kind Samples.event TCP.write_multiple_coils
           Samples.ev_address Samples.ev_value Samples.int_of
           Samples.tcp_down Samples.e_seq TCP.init 7
           (PyList [PyBool true; PyBool false]));
    reflexivity.
Defined.

(** * Further properties of the RTU block *)

(** [_function_name_from_code] knows exactly the eight function codes:
    any other code is a missing key and gives [None]; so every member of
    [FunctionName] names a client method. *)
Theorem rtu_function_table_domain (code : Z) :
  RTU._function_name_from_code code = None <->
  code ∉ [1; 2; 3; 4; 5; 6; 15; 16].
Proof.
  unfold RTU._function_name_from_code.
  rewrite !not_elem_of_cons. split.
  - intros H. repeat (split; [intros ->; vm_compute in H; discriminate|]).
    apply not_elem_of_nil.
  - intros (H1 & H2 & H3 & H4 & H5 & H6 & H15 & H16 & _).
    repeat (rewrite lookup_insert_ne by congruence).
    apply lookup_singleton_ne. congruence.
Qed.

(** The client methods by kind of function: the bit functions (coils,
    discrete inputs) go to [read_bit] and [write_bit], multiple coils
    included; the register functions to [read_registers],
    [write_register] and [write_registers]. *)
Theorem rtu_function_table_by_kind function_name :
  RTU._modbus_function function_name =
    Some match function_name with
         | RTU.read_coils | RTU.read_discrete_inputs => "read_bit"
         | RTU.write_single_coil | RTU.write_multiple_coils => "write_bit"
         | RTU.read_holding_registers | RTU.read_input_registers =>
             "read_registers"
         | RTU.write_single_holding_register => "write_register"
         | RTU.write_multiple_holding_registers => "write_registers"
         end.
Proof. destruct function_name; reflexivity. Qed.

(** The RTU [_execute] makes exactly one client call, with the parameters
    it was given.  If the call raises, [_execute] raises the same
    exception; if it returns, [_execute] returns a signal holding the
    response and the parameters exactly when the response is truthy. *)
Theorem rtu_execute_one_call
    function_name device (p : gmap string pyval) w :
  exists f w',
    RTU._modbus_function function_name = Some f /\
    RTU.io w' = RTU.io w ++ [RTU.Call f p] /\
    RTU.notified w' = RTU.notified w /\
    RTU._num_locks w' = RTU._num_locks w /\
    RTU._execute function_name device p w =
      (match device (RTU.io w) f p with
       | RTU.Returns r =>
           Ret (if truthy r
                then Some {| RTU.sig_values := r; RTU.sig_params := p |}
                else None)
       | RTU.Raises e => Raise e
       end, w').
Proof.
  destruct (RTUFacts.modbus_function_defined function_name) as [f Hf].
  exists f. destruct (device (RTU.io w) f p) as [r|e] eqn:Hd.
  - destruct (RTUFacts.rtu_execute_returns function_name device f p w r Hf Hd)
      as (w' & H & Hio & Hn & Hl).
    exists w'. rewrite H. unfold RTU._process_response.
    destruct (truthy r); auto.
  - destruct (RTUFacts.execute_raises function_name device f p w e Hf Hd)
      as (w' & H & Hio & Hn & Hl).
    exists w'. rewrite H. auto.
Qed.

(** [_close] never raises, whatever closing the serial port does: the
    close is attempted once; if it raises, one warning is logged and the
    exception goes no further. *)
Theorem rtu_close_swallows_the_failure serial_close w :
  exists w',
    RTU._close serial_close w = (Ret tt, w') /\
    RTU.io w' = RTU.io w ++ [RTU.SerialClose] /\
    RTU.logs w' =
      RTU.logs w ++
      match serial_close (RTU.io w) with
      | Some _ => [(Warning, "Failed to manually close serial connection")]
      | None => []
      end /\
    RTU.notified w' = RTU.notified w /\
    RTU._num_locks w' = RTU._num_locks w.
Proof.
  unfold RTU._close. RTUFacts.run.
  destruct (serial_close (RTU.io w)); simpl; eexists;
    (split; [reflexivity|]); simpl; rewrite ?app_nil_r; auto.
Qed.

(** The RTU [_prepare_params] raises exactly when the function is a write
    and its value expression raises.  An address that does not resolve
    raises nothing: the dict is returned with [None] under
    [registeraddress].  Every returned dict holds the function code, and
    nothing reaches the transport either way. *)
Theorem rtu_prepare_params_outcome
    (signal : Type) function_name address value count py_int (s : signal) w :
  exists w',
    RTU.io w' = RTU.io w /\
    RTU.notified w' = RTU.notified w /\
    RTU._num_locks w' = RTU._num_locks w /\
    if RTU.is_write function_name && bool_decide (value s = None) then
      RTU._prepare_params signal function_name address value count py_int s w
      = (Raise (Exception "Invalid configuration of `value` property"), w')
    else
      exists p,
        RTU._prepare_params signal function_name address value count py_int
          s w = (Ret p, w') /\
        p !! "functioncode"
          = Some (PyInt (RTU.FunctionName_value function_name)) /\
        p !! "registeraddress"
          = Some (py_of_option_int (address s ≫= py_int)).
Proof.
  destruct (RTUFacts.prepare_params_eq function_name address value count
              py_int s w) as (w' & Hio & Hn & Hl & H).
  exists w'. repeat (split; [assumption|]). rewrite H. cbv zeta.
  destruct function_name; simpl; try (eexists; split; [reflexivity|];
    split; by simplify_map_eq);
    destruct (value s) as [v|]; simpl; try reflexivity;
    eexists; (split; [reflexivity|]); split; by simplify_map_eq.
Qed.

(** While one thread runs the RTU [process_signals], the waiting count is
    the count the batch started with, plus one exactly while a signal is
    between the increment and the decrement, and after an exception has
    left the loop; it is back at its start whenever the loop is at its
    head, and when the batch is finished. *)
Theorem rtu_count_within_a_batch
    (signal : Type) function_name address value count py_int device
    serial_close (signals : list signal) output w c :
  rtc (RTU.step signal function_name address value count py_int device
         serial_close)
    (RTU.LoopHead signal signals output, w) c ->
  RTU._num_locks c.2 = RTU._num_locks w + Measure.rtu_held c.1.
Proof.
  intros H.
  refine (rtc_ind_r
            (fun c => RTU._num_locks c.2
                      = RTU._num_locks w + Measure.rtu_held c.1) _ _ _ c H);
    [simpl; lia|].
  clear c H. intros c1 c2 _ Hs IH.
  destruct Hs as
    [s rest out w1 w2 Hc Hl | s rest out w1 w2 Hc Ha | s rest out w1 o w2 Hp
    | s rest out w1 e w2 Hp | rest out w1 w2 Hr | out w1 w2 Hf];
    simpl in *.
  - injection Hl as <-. simpl. lia.
  - injection Ha as <-. simpl. lia.
  - destruct (RTUFacts.preserves_process_signal _ _ _ _ _ _ _ s _ _ _ Hp)
      as (-> & _). lia.
  - destruct (RTUFacts.preserves_process_signal _ _ _ _ _ _ _ s _ _ _ Hp)
      as (-> & _). lia.
  - injection Hr as <-. simpl. lia.
  - destruct out; injection Hf as <-; simpl; lia.
Qed.

Lemma rtu_count_within_a_batch_witness :
  exists w',
    RTU.process_signals Samples.event RTU.write_single_coil
      Samples.ev_address Samples.ev_value 1 Samples.int_of Samples.rtu_none
      Samples.close_ok [Samples.e1; Samples.e2; Samples.e3] RTU.init
    = (Raise (Exception "Invalid configuration of `value` property"), w') /\
    RTU._num_locks w' = RTU._num_locks RTU.init + 1.
Proof.
  eexists. split; [vm_compute; reflexivity|].
  match goal with |- RTU._num_locks ?w' = _ =>
    apply (rtu_count_within_a_batch Samples.event RTU.write_single_coil
             Samples.ev_address Samples.ev_value 1 Samples.int_of
             Samples.rtu_none Samples.close_ok
             [Samples.e1; Samples.e2; Samples.e3] [] RTU.init
             (RTU.Propagating Samples.event
                (Exception "Invalid configuration of `value` property"), w'))
  end.
  apply (RTUFacts.process_signals_steps RTU.write_single_coil
           Samples.ev_address Samples.ev_value 1 Samples.int_of
           Samples.rtu_none Samples.close_ok
           [Samples.e1; Samples.e2; Samples.e3] RTU.init
           (Raise (Exception "Invalid configuration of `value` property"))).
  vm_compute. reflexivity.
Defined.
